(** * GymToUnityWrapper: a gym environment presented as a Unity BaseEnv

    Shallow embedding of
    [ml-agents-envs/mlagents_envs/gym_to_unity_wrapper.py].

    - Numbers are exact: a numpy float is a rational, an infinity or NaN,
      and an entry of an integer dtype is an integer with its wrap-around
      ([num]); rounding to 32 bits and the sign of zero are abstracted.
      Where rounding decides (the round trip of the normalisation) the
      same arithmetic is taken on IEEE 754 floats ([spec_float]).
    - A numpy array is a shape and its entries in row-major order
      ([ndarray]); binary operations follow numpy's broadcasting rules and
      fail ([None], numpy's ValueError) on incompatible shapes.
    - The wrapper object is a record; a method is a function from the
      object to an outcome (returned value or raised exception) and the
      object as the call leaves it, since a Python object keeps the
      attribute writes made before an exception is raised.
    - The wrapped gym environment is a deterministic transition system
      over an arbitrary state type, which never raises. *)

From Stdlib Require Import String Ascii DecimalString.
From Stdlib Require Import List Arith ZArith QArith Qcanon Qabs Lqa SpecFloat Bool Lia.
Import ListNotations.

Set Implicit Arguments.

(** ** Numbers *)

Module Num.

(** A number as numpy holds it: a float, which is a rational, an infinity
    or NaN, or an integer of a fixed-width integer dtype (signed or not,
    of so many bits). *)
Inductive num : Type :=
| Fin (q : Qc)
| PInf
| NInf
| NaN
| Int (signed : bool) (bits : positive) (z : Z).

Definition zero : num := Fin (Q2Qc 0).
Definition one : num := Fin (Q2Qc 1).
Definition of_Z (z : Z) : num := Fin (Q2Qc (inject_Z z)).

(** The literal [1e38] of the source. *)
Definition threshold : Qc := Q2Qc (inject_Z (10 ^ 38)).

(** The float of the same value: what an operation between an integer and
    a float, and every true division, works on. *)
Definition to_float (x : num) : num :=
  match x with
  | Int _ _ z => of_Z z
  | _ => x
  end.

(** Wrap-around of an integer dtype: two's complement for a signed one,
    the residue modulo [2 ^ bits] for an unsigned one. *)
Definition wrap (signed : bool) (bits : positive) (z : Z) : Z :=
  if signed
  then ((z + 2 ^ (Zpos bits - 1)) mod 2 ^ Zpos bits - 2 ^ (Zpos bits - 1))%Z
  else (z mod 2 ^ Zpos bits)%Z.

(** Unary minus: exact on a float, with wrap-around on an integer (the
    negation of the least [int8] is itself, that of the [uint8] 1 is
    255). *)
Definition neg (x : num) : num :=
  match x with
  | Fin q => Fin (- q)%Qc
  | PInf => NInf
  | NInf => PInf
  | NaN => NaN
  | Int s b z => Int s b (wrap s b (- z))
  end.

Definition float_maximum (x y : num) : num :=
  match x, y with
  | NaN, _ | _, NaN => NaN
  | PInf, _ | _, PInf => PInf
  | NInf, z | z, NInf => z
  | Fin a, Fin b => match (a ?= b)%Qc with Lt => Fin b | _ => Fin a end
  | z, _ => z
  end.

(** [np.maximum] on two entries: NaN propagates; two integers of one
    dtype give an integer of that dtype. *)
Definition maximum (x y : num) : num :=
  match x, y with
  | Int s b z1, Int s' b' z2 =>
      if Bool.eqb s s' && Pos.eqb b b' then Int s b (Z.max z1 z2)
      else float_maximum (of_Z z1) (of_Z z2)
  | _, _ => float_maximum (to_float x) (to_float y)
  end.

(** [x > q] for a finite literal [q]; false on NaN. *)
Definition gt (x : num) (q : Qc) : bool :=
  match to_float x with
  | Fin a => match (a ?= q)%Qc with Gt => true | _ => false end
  | PInf => true
  | _ => false
  end.

Definition float_div (x y : num) : num :=
  match x, y with
  | NaN, _ | _, NaN => NaN
  | Fin a, Fin b =>
      match (b ?= Q2Qc 0)%Qc with
      | Eq => match (a ?= Q2Qc 0)%Qc with
              | Eq => NaN
              | Gt => PInf
              | Lt => NInf
              end
      | _ => Fin (a / b)%Qc
      end
  | Fin _, (PInf | NInf) => zero
  | PInf, Fin b => match (b ?= Q2Qc 0)%Qc with Lt => NInf | _ => PInf end
  | NInf, Fin b => match (b ?= Q2Qc 0)%Qc with Lt => PInf | _ => NInf end
  | (PInf | NInf), (PInf | NInf) => NaN
  | _, _ => NaN
  end.

(** True division: always a division of floats. A division by zero is not
    an error in numpy: it yields an infinity, or NaN for 0/0. *)
Definition div (x y : num) : num := float_div (to_float x) (to_float y).

Definition float_mul (x y : num) : num :=
  match x, y with
  | NaN, _ | _, NaN => NaN
  | Fin a, Fin b => Fin (a * b)%Qc
  | Fin a, PInf | PInf, Fin a =>
      match (a ?= Q2Qc 0)%Qc with Eq => NaN | Gt => PInf | Lt => NInf end
  | Fin a, NInf | NInf, Fin a =>
      match (a ?= Q2Qc 0)%Qc with Eq => NaN | Gt => NInf | Lt => PInf end
  | PInf, PInf | NInf, NInf => PInf
  | PInf, NInf | NInf, PInf => NInf
  | _, _ => NaN
  end.

(** Multiplication of floats. *)
Definition mul (x y : num) : num := float_mul (to_float x) (to_float y).

(** Truncation towards zero, as Python's [int] and C's conversion do. *)
Definition trunc (q : Qc) : Z := Z.quot (Qnum q) (Zpos (Qden q)).

(** Two's complement wrap-around to 32 bits. *)
Definition wrap32 (z : Z) : Z := ((z + 2 ^ 31) mod 2 ^ 32 - 2 ^ 31)%Z.

(** Conversion of one entry by [astype(np.int32)]: a float is truncated
    towards zero, and a float that is out of range, infinite or NaN gives
    the least 32-bit integer (numpy leaves this case to the platform; it
    is what x86-64 does); an integer of another dtype wraps around. *)
Definition to_int32 (x : num) : Z :=
  match x with
  | Fin q =>
      if ((- 2 ^ 31 <=? trunc q) && (trunc q <? 2 ^ 31))%Z then trunc q
      else (- 2 ^ 31)%Z
  | Int _ _ z => wrap32 z
  | _ => (- 2 ^ 31)%Z
  end.

(** Python's [int] on an entry of an integer array. *)
Definition py_int (x : num) : Z :=
  match x with
  | Fin q => trunc q
  | Int _ _ z => z
  | _ => 0%Z
  end.

End Num.
Import Num.

Local Open Scope nat_scope.

(** ** Arrays *)

Record ndarray : Type := mkarr { shape : list nat; data : list num }.

(** [np.prod] of a shape: the number of entries. *)
Definition size (s : list nat) : nat := fold_right Nat.mul 1 s.

(** Broadcasting of two shapes, both given from the last axis to the
    first. *)
Fixpoint broadcast_rev (s1 s2 : list nat) : option (list nat) :=
  match s1, s2 with
  | [], s | s, [] => Some s
  | a :: r1, b :: r2 =>
      match broadcast_rev r1 r2 with
      | None => None
      | Some r =>
          if a =? b then Some (a :: r)
          else if a =? 1 then Some (b :: r)
          else if b =? 1 then Some (a :: r)
          else None
      end
  end.

Definition broadcast_shapes (s1 s2 : list nat) : option (list nat) :=
  option_map (@rev nat) (broadcast_rev (rev s1) (rev s2)).

(** Position along each axis (last axis first) of the entry at row-major
    offset [i]. *)
Fixpoint unravel_rev (i : nat) (srev : list nat) : list nat :=
  match srev with
  | [] => []
  | d :: r => (i mod d) :: unravel_rev (i / d) r
  end.

(** Row-major offset in an operand of shape [srev] of the entry that is
    broadcast to position [idx]: an axis of length 1 is repeated. *)
Fixpoint ravel_rev (idx srev : list nat) : nat :=
  match srev, idx with
  | d :: r, k :: ks => (if d =? 1 then 0 else k) + d * ravel_rev ks r
  | _, _ => 0
  end.

Definition bcast_index (out operand : list nat) (i : nat) : nat :=
  ravel_rev (unravel_rev i (rev out)) (rev operand).

(** An elementwise binary operation of numpy. *)
Definition broadcast2 (f : num -> num -> num) (a b : ndarray) : option ndarray :=
  match broadcast_shapes (shape a) (shape b) with
  | None => None
  | Some s =>
      Some (mkarr s
        (map (fun i => f (nth (bcast_index s (shape a) i) (data a) NaN)
                         (nth (bcast_index s (shape b) i) (data b) NaN))
             (seq 0 (size s))))
  end.

Definition np_maximum : ndarray -> ndarray -> option ndarray := broadcast2 maximum.
Definition np_divide : ndarray -> ndarray -> option ndarray := broadcast2 div.

Definition np_negative (a : ndarray) : ndarray :=
  mkarr (shape a) (map neg (data a)).

(** [a[a > q] = v] on the result [a] of an elementwise operation. On
    0-dimensional operands such an operation returns a numpy scalar, not
    an array, and a scalar does not support item assignment: TypeError
    ([None]). *)
Definition assign_where_gt (a : ndarray) (q : Qc) (v : num) : option ndarray :=
  match shape a with
  | [] => None
  | _ => Some (mkarr (shape a) (map (fun x => if gt x q then v else x) (data a)))
  end.

(** [np.expand_dims(a, axis=0)] *)
Definition expand_dims0 (a : ndarray) : ndarray :=
  mkarr (1 :: shape a) (data a).

(** [a[0]]: the first item along the first axis; IndexError ([None]) on a
    0-dimensional array or an empty first axis. *)
Definition getitem0 (a : ndarray) : option ndarray :=
  match shape a with
  | [] | 0 :: _ => None
  | S _ :: s => Some (mkarr s (firstn (size s) (data a)))
  end.

(** [a[0]] on a 1-dimensional array and [a[0, 0]] on a 2-dimensional one:
    a single entry. *)
Definition getitem0_scalar (a : ndarray) : option num :=
  match shape a with
  | [S _] => Some (nth 0 (data a) NaN)
  | _ => None
  end.

Definition getitem00 (a : ndarray) : option num :=
  match shape a with
  | [S _; S _] => Some (nth 0 (data a) NaN)
  | _ => None
  end.

Inductive np_dtype : Type := float32 | int32.

(** [a.astype(t)]. The source converts only an array of another type; the
    conversion changes nothing in an array that has the type already,
    whose entries are floats, or integers of 32 bits. *)
Definition astype (t : np_dtype) (a : ndarray) : ndarray :=
  match t with
  | float32 => a
  | int32 => mkarr (shape a) (map (fun x => of_Z (to_int32 x)) (data a))
  end.

(** ** Python values and their printed form *)

(** A Python number used as a dimension: an [int], or a [float] with an
    integral value ([np.prod] of the empty shape is the float [1.0]). *)
Inductive pynum : Type :=
| PyInt (n : nat)
| PyFloat (n : nat).

Definition py_value (x : pynum) : nat :=
  match x with PyInt n | PyFloat n => n end.

Definition show_nat (n : nat) : string := NilEmpty.string_of_uint (Nat.to_uint n).

Definition show_pynum (x : pynum) : string :=
  match x with
  | PyInt n => show_nat n
  | PyFloat n => show_nat n ++ ".0"
  end.

(** [str] of a tuple: [()], [(3,)], [(1, 3)]. *)
Definition show_tuple (t : list pynum) : string :=
  match t with
  | [] => "()"
  | [x] => "(" ++ show_pynum x ++ ",)"
  | _ => "(" ++ String.concat ", " (map show_pynum t) ++ ")"
  end.

(** [shape == expected] on tuples of numbers: same length and equal
    values, an [int] being equal to the [float] of the same value. *)
Fixpoint tuple_eqb (s : list nat) (t : list pynum) : bool :=
  match s, t with
  | [], [] => true
  | d :: s', x :: t' => (d =? py_value x) && tuple_eqb s' t'
  | _, _ => false
  end.

(** [np.prod] of a tuple of dimensions. *)
Definition np_prod (s : list nat) : pynum :=
  match s with
  | [] => PyFloat 1
  | _ => PyInt (size s)
  end.

(** ** The gym interface *)

Module gym.

(** [gym.spaces]. A [Box] has bounds [low] and [high] of the space's
    shape; any space that is neither a [Box] nor a [Discrete] is kept by
    its printed form. *)
Inductive Space : Type :=
| Box (low high : ndarray)
| Discrete (n : nat)
| Other (repr : string).

Definition space_shape (sp : Space) : list nat :=
  match sp with
  | Box low _ => shape low
  | _ => []
  end.

Definition repr (sp : Space) : string :=
  match sp with
  | Box low _ => "Box" ++ show_tuple (map PyInt (shape low))
  | Discrete n => "Discrete(" ++ show_nat n ++ ")"
  | Other r => r
  end.

(** What the wrapper hands to [env.step]: [None] until an action is set,
    then an [int] (discrete space) or an array (box space). *)
Inductive Action : Type :=
| ActNone
| ActInt (z : Z)
| ActArr (a : ndarray).

(** The [info] dictionary, as far as the wrapper reads it: keys with a
    truth value. *)
Definition Info : Type := list (string * bool).

Fixpoint info_get (key : string) (default : bool) (info : Info) : bool :=
  match info with
  | [] => default
  | (k, b) :: rest => if String.eqb k key then b else info_get key default rest
  end.

(** A gym environment over states [St]: the two space descriptors and the
    effect of [reset()], [step(action)] and [close()] on the state. *)
Record Env (St : Type) : Type := mkEnv {
  action_space : Space;
  observation_space : Space;
  reset : St -> St * ndarray;
  step : St -> Action -> St * (ndarray * num * bool * Info);
  close : St -> St
}.

End gym.

(** ** The Unity side: [mlagents_envs.base_env] *)

Module base_env.

Inductive ActionType : Type := DISCRETE | CONTINUOUS.

(** [Union[Tuple[int, ...], int]] *)
Inductive ActionShape : Type :=
| ScalarShape (n : pynum)
| TupleShape (t : list nat).

Record BehaviorSpec : Type := mkBehaviorSpec {
  observation_shapes : list (list nat);
  action_type : ActionType;
  action_shape : ActionShape
}.

(** Modelled from the spec: [BehaviorSpec.is_action_continuous] is declared
    in [mlagents_envs/base_env.py], which is not among the sources; the
    spec has an action type that is continuous or discrete. *)
Definition is_action_continuous (spec : BehaviorSpec) : bool :=
  match action_type spec with
  | CONTINUOUS => true
  | DISCRETE => false
  end.

(** Modelled from the spec: [BehaviorSpec.action_size] is declared in
    [mlagents_envs/base_env.py], which is not among the sources. The spec
    describes the action shape as the size of the continuous vector or
    the count of discrete categories, and gives action size N for a
    discrete space of N categories; the wrapper stores the tuple [(N,)],
    whose categories are counted here. *)
Definition action_size (spec : BehaviorSpec) : pynum :=
  match action_shape spec with
  | ScalarShape n => n
  | TupleShape t => PyInt (fold_right Nat.add 0 t)
  end.

Record DecisionSteps : Type := mkDecisionSteps {
  d_obs : list ndarray;
  d_reward : list num;
  d_agent_id : list Z;
  d_action_mask : option (list ndarray)
}.

Record TerminalSteps : Type := mkTerminalSteps {
  t_obs : list ndarray;
  t_reward : list num;
  t_interrupted : list bool;
  t_agent_id : list Z
}.

(** Modelled from the spec: [DecisionSteps.empty], [TerminalSteps.empty]
    and [len] of a batch are declared in [mlagents_envs/base_env.py],
    which is not among the sources. An empty batch has zero agents in all
    fields; the number of agents of a batch is that of its agent ids. *)
Definition DecisionSteps_empty (spec : BehaviorSpec) : DecisionSteps :=
  mkDecisionSteps
    (map (fun s => mkarr (0 :: s) []) (observation_shapes spec)) [] [] None.

Definition TerminalSteps_empty (spec : BehaviorSpec) : TerminalSteps :=
  mkTerminalSteps
    (map (fun s => mkarr (0 :: s) []) (observation_shapes spec)) [] [] [].

Definition d_len (d : DecisionSteps) : nat := length (d_agent_id d).
Definition t_len (t : TerminalSteps) : nat := length (t_agent_id t).

End base_env.
Import base_env.

(** ** Exceptions and the method monad *)

Inductive exn : Type :=
| AssertionError
| UnityActionException (msg : string)
| UnityObservationException (msg : string)
| ValueError
| IndexError
| AttributeError
| TypeError.

(** A method body: from the object to how the call ends and the object it
    leaves behind. *)
Definition M (St A : Type) : Type := St -> (exn + A) * St.

Definition ret {St A} (a : A) : M St A := fun s => (inr a, s).

Definition bind {St A B} (m : M St A) (k : A -> M St B) : M St B :=
  fun s =>
    match m s with
    | (inl e, s') => (inl e, s')
    | (inr a, s') => k a s'
    end.

Definition raise {St A} (e : exn) : M St A := fun s => (inl e, s).
Definition gets {St A} (f : St -> A) : M St A := fun s => (inr (f s), s).
Definition modify {St} (f : St -> St) : M St unit := fun s => (inr tt, f s).

(** A partial library operation, raising [e] where it is undefined. *)
Definition orelse {St A} (o : option A) (e : exn) : M St A :=
  match o with
  | Some a => ret a
  | None => raise e
  end.

Definition py_assert {St} (b : bool) : M St unit :=
  if b then ret tt else raise AssertionError.

Declare Scope method_scope.
Delimit Scope method_scope with method.
Notation "x <- m ;; k" := (bind m (fun x => k))
  (at level 61, m at next level, right associativity) : method_scope.
Notation "m ;; k" := (bind m (fun _ => k))
  (at level 61, right associativity) : method_scope.

(** ** The wrapper *)

Record GymToUnityWrapper (St : Type) : Type := mkWrapper {
  _gym_env : St;
  _first_message : bool;
  _behavior_name : string;
  _act_ratio : option ndarray;       (* set for a box action space only *)
  _obs_ratio : ndarray;
  _behavior_specs : BehaviorSpec;
  _g_action : gym.Action;
  _current_steps : DecisionSteps * TerminalSteps
}.

Definition _DEFAULT_BEHAVIOR_NAME : string := "gym_behavior_name".
Definition _AGENT_ID : Z := 1%Z.

Section Attributes.
Context {St : Type}.
Local Abbreviation Self := (GymToUnityWrapper St).

Definition set_gym_env (s : St) (w : Self) : Self :=
  mkWrapper s (_first_message w) (_behavior_name w) (_act_ratio w)
    (_obs_ratio w) (_behavior_specs w) (_g_action w) (_current_steps w).

Definition set_first_message (b : bool) (w : Self) : Self :=
  mkWrapper (_gym_env w) b (_behavior_name w) (_act_ratio w)
    (_obs_ratio w) (_behavior_specs w) (_g_action w) (_current_steps w).

Definition set_g_action (g : gym.Action) (w : Self) : Self :=
  mkWrapper (_gym_env w) (_first_message w) (_behavior_name w) (_act_ratio w)
    (_obs_ratio w) (_behavior_specs w) g (_current_steps w).

Definition set_current_steps (cs : DecisionSteps * TerminalSteps) (w : Self) : Self :=
  mkWrapper (_gym_env w) (_first_message w) (_behavior_name w) (_act_ratio w)
    (_obs_ratio w) (_behavior_specs w) (_g_action w) cs.
End Attributes.

(** The normalisation ratio of a box: [np.maximum(high, -low)] with the
    entries above 1e38 replaced by 1. *)
Definition ratio_of_bounds (low high : ndarray) : option ndarray :=
  match np_maximum high (np_negative low) with
  | Some r => assign_where_gt r threshold one
  | None => None
  end.

(** The exception raised where the ratio cannot be computed: ValueError
    by [np.maximum] on bounds whose shapes do not broadcast, TypeError by
    the item assignment on 0-dimensional bounds. *)
Definition ratio_error (low high : ndarray) : exn :=
  match np_maximum high (np_negative low) with
  | Some _ => TypeError
  | None => ValueError
  end.

Section Wrapper.
Context {St : Type}.
Variable E : gym.Env St.
(** [BehaviorSpec.action_size], declared in [base_env.py]: the methods
    take the accessor as a parameter. *)
Variable action_size : BehaviorSpec -> pynum.

Local Abbreviation Self := (GymToUnityWrapper St).
Local Open Scope method_scope.

Definition __init__ (gym_env : St) (name : option string) : exn + Self :=
  let behavior_name :=
    match name with
    | None => _DEFAULT_BEHAVIOR_NAME
    | Some n => n
    end in
  let action :=
    match gym.action_space E with
    | gym.Box low high =>
        match ratio_of_bounds low high with
        | Some r =>
            inr (CONTINUOUS,
                 ScalarShape (np_prod (gym.space_shape (gym.action_space E))),
                 Some r)
        | None => inl (ratio_error low high)
        end
    | gym.Discrete n => inr (DISCRETE, TupleShape [n], None)
    | sp => inl (UnityActionException ("Unknown action type " ++ gym.repr sp))
    end in
  match action with
  | inl e => inl e
  | inr (action_type, action_shape, act_ratio) =>
      match gym.observation_space E with
      | gym.Box low high =>
          match ratio_of_bounds low high with
          | Some obs_ratio =>
              let specs :=
                mkBehaviorSpec [gym.space_shape (gym.observation_space E)]
                               action_type action_shape in
              inr (mkWrapper gym_env true behavior_name act_ratio obs_ratio
                     specs gym.ActNone
                     (DecisionSteps_empty specs, TerminalSteps_empty specs))
          | None => inl (ratio_error low high)
          end
      | sp =>
          inl (UnityObservationException
                 ("Unknown observation type " ++ gym.repr sp))
      end
  end.

(** The [behavior_specs] property: a mapping with one entry. *)
Definition behavior_specs (w : Self) : list (string * BehaviorSpec) :=
  [(_behavior_name w, _behavior_specs w)].

(** [self._gym_env.reset()] and [self._gym_env.step(action)] *)
Definition gym_env_reset : M Self ndarray :=
  fun w => let (s, obs) := gym.reset E (_gym_env w) in (inr obs, set_gym_env s w).

Definition gym_env_step (a : gym.Action)
  : M Self (ndarray * num * bool * gym.Info) :=
  fun w => let (s, r) := gym.step E (_gym_env w) a in (inr r, set_gym_env s w).

(** [[np.expand_dims(obs / self._obs_ratio, axis=0)]] *)
Definition normalized_obs (obs : ndarray) : M Self (list ndarray) :=
  ratio <- gets (@_obs_ratio St) ;;
  q <- orelse (np_divide obs ratio) ValueError ;;
  ret [expand_dims0 q].

Definition reset : M Self unit :=
  modify (set_first_message false) ;;
  obs <- gym_env_reset ;;
  o <- normalized_obs obs ;;
  spec <- gets (@_behavior_specs St) ;;
  modify (set_current_steps
            (mkDecisionSteps o [zero] [_AGENT_ID] None,
             TerminalSteps_empty spec)).

Definition step : M Self unit :=
  first_message <- gets (@_first_message St) ;;
  if first_message : bool then reset
  else
    g_action <- gets (@_g_action St) ;;
    r <- gym_env_step g_action ;;
    let '(obs, rew, done, info) := r in
    if negb done then
      o <- normalized_obs obs ;;
      spec <- gets (@_behavior_specs St) ;;
      modify (set_current_steps
                (mkDecisionSteps o [rew] [_AGENT_ID] None,
                 TerminalSteps_empty spec))
    else
      modify (set_first_message true) ;;
      spec <- gets (@_behavior_specs St) ;;
      o <- normalized_obs obs ;;
      modify (set_current_steps
                (DecisionSteps_empty spec,
                 mkTerminalSteps o [rew]
                   [gym.info_get "TimeLimit.truncated" false info]
                   [_AGENT_ID])).

Definition close : M Self unit :=
  modify (fun w => set_gym_env (gym.close E (_gym_env w)) w).

Definition set_actions (behavior_name : string) (action : ndarray) : M Self unit :=
  name <- gets (@_behavior_name St) ;;
  py_assert (String.eqb behavior_name name) ;;
  spec <- gets (@_behavior_specs St) ;;
  let expected_type := if is_action_continuous spec then float32 else int32 in
  cs <- gets (@_current_steps St) ;;
  let n_agents := d_len (fst cs) in
  if n_agents =? 0 then ret tt
  else
    let expected_shape := [PyInt n_agents; action_size spec] in
    if negb (tuple_eqb (shape action) expected_shape) then
      raise (UnityActionException
               ("The behavior " ++ behavior_name
                ++ " needs an input of dimension " ++ show_tuple expected_shape
                ++ " but received input of dimension "
                ++ show_tuple (map PyInt (shape action))))
    else
      let action := astype expected_type action in
      match gym.action_space E with
      | gym.Discrete _ =>
          x <- orelse (getitem00 action) IndexError ;;
          modify (set_g_action (gym.ActInt (py_int x)))
      | gym.Box _ _ =>
          row <- orelse (getitem0 action) IndexError ;;
          ratio <- gets (@_act_ratio St) ;;
          ratio <- orelse ratio AttributeError ;;
          g <- orelse (np_divide row ratio) ValueError ;;
          modify (set_g_action (gym.ActArr g))
      | sp =>
          raise (UnityActionException ("Unknown action type " ++ gym.repr sp))
      end.

Definition set_action_for_agent (behavior_name : string) (agent_id : Z)
                                (action : ndarray) : M Self unit :=
  name <- gets (@_behavior_name St) ;;
  py_assert (String.eqb behavior_name name) ;;
  py_assert (Z.eqb agent_id _AGENT_ID) ;;
  spec <- gets (@_behavior_specs St) ;;
  let expected_shape := [action_size spec] in
  if negb (tuple_eqb (shape action) expected_shape) then
    (* the message is an f-string: its fields are the literals 0 to 3,
       and [format] finds nothing left to fill *)
    raise (UnityActionException
             ("The Agent 0 with BehaviorName 1 needs an input of dimension "
              ++ "2 but received input of dimension 3"))
  else
    let expected_type := if is_action_continuous spec then float32 else int32 in
    let action := astype expected_type action in
    match gym.action_space E with
    | gym.Discrete _ =>
        x <- orelse (getitem0_scalar action) IndexError ;;
        modify (set_g_action (gym.ActInt (py_int x)))
    | gym.Box _ _ =>
        ratio <- gets (@_act_ratio St) ;;
        ratio <- orelse ratio AttributeError ;;
        g <- orelse (np_divide action ratio) ValueError ;;
        modify (set_g_action (gym.ActArr g))
    | sp =>
        raise (UnityActionException ("Unknown action type " ++ gym.repr sp))
    end.

Definition get_steps (behavior_name : string)
  : M Self (DecisionSteps * TerminalSteps) :=
  name <- gets (@_behavior_name St) ;;
  py_assert (String.eqb behavior_name name) ;;
  gets (@_current_steps St).

End Wrapper.

(** ** Sequences of calls and the state of the step pair *)

Inductive Advance : Type := DoStep | DoReset.

Section Runs.
Context {St : Type}.
Variable E : gym.Env St.

Definition advance (c : Advance) : M (GymToUnityWrapper St) unit :=
  match c with
  | DoStep => step E
  | DoReset => reset E
  end.

(** The calls one after the other; an exception ends the sequence. *)
Fixpoint run (calls : list Advance) : M (GymToUnityWrapper St) unit :=
  match calls with
  | [] => ret tt
  | c :: rest => bind (advance c) (fun _ => run rest)
  end.

(** The environment keeps to the gym interface: its box of observations
    has bounds of one shape, and every observation has that shape. *)
Definition observes_in_space : Prop :=
  (forall low high, gym.observation_space E = gym.Box low high ->
                    shape high = shape low) /\
  (forall s, shape (snd (gym.reset E s))
             = gym.space_shape (gym.observation_space E)) /\
  (forall s a, shape (fst (fst (fst (snd (gym.step E s a)))))
               = gym.space_shape (gym.observation_space E)).

End Runs.

Definition awaiting_decision (cs : DecisionSteps * TerminalSteps) : Prop :=
  d_len (fst cs) = 1 /\ t_len (snd cs) = 0.

Definition terminated (cs : DecisionSteps * TerminalSteps) : Prop :=
  d_len (fst cs) = 0 /\ t_len (snd cs) = 1.

Definition exactly_one_batch (cs : DecisionSteps * TerminalSteps) : Prop :=
  (awaiting_decision cs /\ ~ terminated cs) \/
  (terminated cs /\ ~ awaiting_decision cs).

(** ** Environments used to run the wrapper on concrete inputs *)

(** The calls an environment has received, newest first. *)
Inductive Call : Type :=
| CallReset
| CallStep (a : gym.Action)
| CallClose.

Fixpoint steps_since_reset (log : list Call) : nat :=
  match log with
  | CallStep _ :: rest => S (steps_since_reset rest)
  | _ => 0
  end.

(** An environment that records its calls, observes [obs] at every call,
    rewards every step with 1 and ends an episode, by its time limit, at
    the step number [horizon]. *)
Definition recording_env (aspace ospace : gym.Space) (obs : ndarray)
                         (horizon : nat) : gym.Env (list Call) :=
  gym.mkEnv aspace ospace
    (fun log => (CallReset :: log, obs))
    (fun log a =>
       (CallStep a :: log,
        (obs, one, horizon <=? S (steps_since_reset log),
         [("TimeLimit.truncated"%string, true)])))
    (fun log => CallClose :: log).

(** A 1-dimensional array of rationals. *)
Definition vec (l : list Q) : ndarray :=
  mkarr [length l] (map (fun q => Fin (Q2Qc q)) l).

(** The spaces of the scenario: actions in [-2, 2], observations in
    [0, 10], both of size 1. *)
Definition scenario_action_space : gym.Space := gym.Box (vec [-2 # 1]) (vec [2 # 1]).
Definition scenario_observation_space : gym.Space := gym.Box (vec [0 # 1]) (vec [10 # 1]).

Definition scenario_env : gym.Env (list Call) :=
  recording_env scenario_action_space scenario_observation_space (vec [5 # 1]) 2.

(** A discrete space of 4 categories over the same observations. *)
Definition discrete_env : gym.Env (list Call) :=
  recording_env (gym.Discrete 4) scenario_observation_space (vec [5 # 1]) 2.

(** A box of actions of shape (2, 3) with bounds -1 and 1. *)
Definition matrix_action_space : gym.Space :=
  gym.Box (mkarr [2; 3] (repeat (Fin (Q2Qc (-1 # 1))) 6))
          (mkarr [2; 3] (repeat one 6)).

Definition matrix_env : gym.Env (list Call) :=
  recording_env matrix_action_space scenario_observation_space (vec [5 # 1]) 2.

(** The step pair a reset or a non-terminal step leaves, and the one a
    terminal step leaves. *)
Definition decision_pair (spec : BehaviorSpec) (q : ndarray) (rew : num)
  : DecisionSteps * TerminalSteps :=
  (mkDecisionSteps [expand_dims0 q] [rew] [_AGENT_ID] None, TerminalSteps_empty spec).

Definition terminal_pair (spec : BehaviorSpec) (q : ndarray) (rew : num)
                         (info : gym.Info) : DecisionSteps * TerminalSteps :=
  (DecisionSteps_empty spec,
   mkTerminalSteps [expand_dims0 q] [rew]
     [gym.info_get "TimeLimit.truncated" false info] [_AGENT_ID]).

(** What no reset and no step writes. *)
Definition same_configuration {St} (w w' : GymToUnityWrapper St) : Prop :=
  _behavior_name w' = _behavior_name w /\
  _act_ratio w' = _act_ratio w /\
  _obs_ratio w' = _obs_ratio w /\
  _behavior_specs w' = _behavior_specs w /\
  _g_action w' = _g_action w.



(** The wrappers the constructor builds over these environments. *)
Definition empty_pair (spec : BehaviorSpec) : DecisionSteps * TerminalSteps :=
  (DecisionSteps_empty spec, TerminalSteps_empty spec).

Definition scenario_spec : BehaviorSpec :=
  mkBehaviorSpec [[1]] CONTINUOUS (ScalarShape (PyInt 1)).

Definition scenario_wrapper : GymToUnityWrapper (list Call) :=
  mkWrapper [] true _DEFAULT_BEHAVIOR_NAME (Some (vec [2 # 1])) (vec [10 # 1])
    scenario_spec gym.ActNone (empty_pair scenario_spec).

Definition discrete_spec : BehaviorSpec :=
  mkBehaviorSpec [[1]] DISCRETE (TupleShape [4]).

Definition discrete_wrapper : GymToUnityWrapper (list Call) :=
  mkWrapper [] true _DEFAULT_BEHAVIOR_NAME None (vec [10 # 1])
    discrete_spec gym.ActNone (empty_pair discrete_spec).

Definition matrix_spec : BehaviorSpec :=
  mkBehaviorSpec [[1]] CONTINUOUS (ScalarShape (PyInt 6)).

Definition matrix_wrapper : GymToUnityWrapper (list Call) :=
  mkWrapper [] true _DEFAULT_BEHAVIOR_NAME (Some (mkarr [2; 3] (repeat one 6)))
    (vec [10 # 1]) matrix_spec gym.ActNone (empty_pair matrix_spec).

(** ** Every call of the interface *)

(** A call a user of the wrapper can make, with its arguments. *)
Inductive Op : Type :=
| OpStep
| OpReset
| OpClose
| OpSetActions (behavior_name : string) (action : ndarray)
| OpSetActionForAgent (behavior_name : string) (agent_id : Z) (action : ndarray)
| OpGetSteps (behavior_name : string).

Section Calls.
Context {St : Type}.
Variable E : gym.Env St.
Variable action_size : BehaviorSpec -> pynum.

(** The call, its returned value dropped. *)
Definition perform (op : Op) : M (GymToUnityWrapper St) unit :=
  match op with
  | OpStep => step E
  | OpReset => reset E
  | OpClose => close E
  | OpSetActions n a => set_actions E action_size n a
  | OpSetActionForAgent n i a => set_action_for_agent E action_size n i a
  | OpGetSteps n => bind (get_steps n) (fun _ => ret tt)
  end.

(** The object after the calls, made one after the other by a caller who
    catches every exception and goes on. *)
Definition exec (ops : list Op) (w : GymToUnityWrapper St) : GymToUnityWrapper St :=
  fold_left (fun w' op => snd (perform op w')) ops w.

End Calls.

(** The calls that submit an action or read the steps. *)
Definition passive (op : Op) : Prop :=
  match op with
  | OpSetActions _ _ | OpSetActionForAgent _ _ _ | OpGetSteps _ => True
  | _ => False
  end.

Definition submission (op : Op) : Prop :=
  match op with
  | OpSetActions _ _ | OpSetActionForAgent _ _ _ => True
  | _ => False
  end.

(** The attributes written by the constructor only. *)
Definition same_spec {St} (w w' : GymToUnityWrapper St) : Prop :=
  _behavior_name w' = _behavior_name w /\
  _act_ratio w' = _act_ratio w /\
  _obs_ratio w' = _obs_ratio w /\
  _behavior_specs w' = _behavior_specs w.

Definition no_agent (cs : DecisionSteps * TerminalSteps) : Prop :=
  d_len (fst cs) = 0 /\ t_len (snd cs) = 0.

(** A pending action of the kind the action space takes. *)
Definition action_fits (sp : gym.Space) (g : gym.Action) : Prop :=
  match g, sp with
  | gym.ActNone, _ => True
  | gym.ActInt _, gym.Discrete _ => True
  | gym.ActArr _, gym.Box _ _ => True
  | _, _ => False
  end.

(** The environment calls a log holds that hand [g] to [step] or are a
    [reset]. *)
Definition steps_with (g : gym.Action) (calls : list Call) : Prop :=
  Forall (fun c => c = CallReset \/ c = CallStep g) calls.

(** More environments: one with an action space that is neither a box nor
    discrete and a discrete observation space, one whose observations of
    shape (2,) do not fit its observation space of shape (3,). *)
Definition tuple_env : gym.Env (list Call) :=
  recording_env (gym.Other "Tuple(Discrete(2), Discrete(3))") (gym.Discrete 5)
                (vec [5 # 1]) 2.

Definition discrete_observation_env : gym.Env (list Call) :=
  recording_env (gym.Discrete 4) (gym.Discrete 5) (vec [5 # 1]) 2.

Definition misshapen_env : gym.Env (list Call) :=
  recording_env scenario_action_space
    (gym.Box (vec [0 # 1; 0 # 1; 0 # 1]) (vec [10 # 1; 10 # 1; 10 # 1]))
    (vec [5 # 1; 5 # 1]) 2.

Definition misshapen_wrapper : GymToUnityWrapper (list Call) :=
  mkWrapper [] true _DEFAULT_BEHAVIOR_NAME (Some (vec [2 # 1]))
    (vec [10 # 1; 10 # 1; 10 # 1])
    (mkBehaviorSpec [[3]] CONTINUOUS (ScalarShape (PyInt 1))) gym.ActNone
    (empty_pair (mkBehaviorSpec [[3]] CONTINUOUS (ScalarShape (PyInt 1)))).

(** The calls that reach the environment. *)
Definition calls_environment (op : Op) : bool :=
  match op with
  | OpStep | OpReset | OpClose => true
  | _ => false
  end.

(** An environment with a log: it behaves as [E] and records, newest
    first, every call it receives. *)
Definition logged {St} (E : gym.Env St) : gym.Env (St * list Call) :=
  gym.mkEnv (gym.action_space E) (gym.observation_space E)
    (fun sl => let (s', obs) := gym.reset E (fst sl) in
               ((s', CallReset :: snd sl), obs))
    (fun sl a => let (s', r) := gym.step E (fst sl) a in
                 ((s', CallStep a :: snd sl), r))
    (fun sl => (gym.close E (fst sl), CallClose :: snd sl)).

Definition logged_scenario_wrapper : GymToUnityWrapper (list Call * list Call) :=
  mkWrapper ([], []) true _DEFAULT_BEHAVIOR_NAME (Some (vec [2 # 1])) (vec [10 # 1])
    scenario_spec gym.ActNone (empty_pair scenario_spec).

(** ** The normalisation on IEEE floats *)

(** An entry of a float array: a binary float of precision [prec] and
    exponent bound [emax] (24 and 128 for float32, 53 and 1024 for
    float64), with the operations of the Standard Library's specification
    of IEEE 754, which round to nearest even. *)




Section Floats.
Variables prec emax : Z.




End Floats.


(** * Properties *)

(** Entering a method under the wrapper's own behavior name: the
    assertion on the name passes. *)
Ltac enter_method :=
  unfold bind, gets, py_assert; simpl; rewrite String.eqb_refl; simpl.

(** ** Numbers *)


Lemma Qc_div_mul_cancel (a q : Qc) : q <> Q2Qc 0 -> (a / q * q)%Qc = a.
Proof. intros Hq. field. exact Hq. Qed.


Lemma trunc_of_Z (z : Z) : trunc (Q2Qc (inject_Z z)) = z.
Proof.
  unfold trunc, Q2Qc, this.
  rewrite Qred_identity by (simpl; apply Z.gcd_1_r).
  simpl. apply Z.quot_1_r.
Qed.

Lemma to_int32_in_range (q : Qc) :
  (- 2 ^ 31 <= trunc q < 2 ^ 31)%Z -> to_int32 (Fin q) = trunc q.
Proof.
  intros [Hlo Hhi]. unfold to_int32.
  apply Z.leb_le in Hlo. apply Z.ltb_lt in Hhi. now rewrite Hlo, Hhi.
Qed.

(** Converting an integer of 32 bits to [int32] and reading it with [int]
    gives the integer back. *)
Lemma py_int_to_int32 (z : Z) :
  (- 2 ^ 31 <= z < 2 ^ 31)%Z -> py_int (of_Z (to_int32 (of_Z z))) = z.
Proof.
  intros Hz. unfold of_Z at 2. rewrite to_int32_in_range by now rewrite trunc_of_Z.
  unfold py_int, of_Z. now rewrite !trunc_of_Z.
Qed.

(** ** Broadcasting, on examples *)

Example broadcast_rows :
  np_maximum (mkarr [2; 3] [NInf; NInf; NaN; PInf; NInf; NInf])
             (mkarr [3] [one; zero; one])
  = Some (mkarr [2; 3] [one; zero; NaN; PInf; zero; one]).
Proof. reflexivity. Qed.

Example broadcast_column_against_row :
  np_maximum (mkarr [2; 1] [NInf; PInf]) (mkarr [1; 3] [one; zero; NaN])
  = Some (mkarr [2; 3] [one; zero; NaN; PInf; PInf; NaN]).
Proof. reflexivity. Qed.

Example broadcast_scalar :
  np_maximum (mkarr [] [zero]) (mkarr [2] [NInf; PInf])
  = Some (mkarr [2] [zero; PInf]).
Proof. reflexivity. Qed.

Example broadcast_mismatch :
  broadcast_shapes [6] [2; 3] = None /\ broadcast_shapes [2] [3] = None /\
  broadcast_shapes [0; 3] [1; 3] = Some [0; 3].
Proof. repeat split. Qed.

Example show_tuple_examples :
  show_tuple [] = "()"%string /\
  show_tuple [PyInt 3] = "(3,)"%string /\
  show_tuple [PyInt 1; PyInt 12] = "(1, 12)"%string /\
  show_tuple [PyInt 1; np_prod []] = "(1, 1.0)"%string.
Proof. repeat split. Qed.

(** ** Broadcasting on equal shapes is entry by entry *)

Lemma broadcast_rev_same (s : list nat) : broadcast_rev s s = Some s.
Proof.
  induction s as [| d r IH]; simpl.
  - reflexivity.
  - rewrite IH, Nat.eqb_refl. reflexivity.
Qed.

Lemma broadcast_shapes_same (s : list nat) : broadcast_shapes s s = Some s.
Proof.
  unfold broadcast_shapes. rewrite broadcast_rev_same. simpl.
  now rewrite rev_involutive.
Qed.

Lemma size_cons (d : nat) (s : list nat) : size (d :: s) = d * size s.
Proof. reflexivity. Qed.

Lemma size_app (s t : list nat) : size (s ++ t) = size s * size t.
Proof.
  induction s as [| d s IH]; simpl.
  - lia.
  - fold (size (s ++ t)) (size s). rewrite IH. lia.
Qed.

Lemma size_rev (s : list nat) : size (rev s) = size s.
Proof.
  induction s as [| d s IH]; simpl.
  - reflexivity.
  - fold (size s). rewrite size_app, IH. simpl. lia.
Qed.

Lemma ravel_unravel (srev : list nat) :
  forall i, i < size srev -> ravel_rev (unravel_rev i srev) srev = i.
Proof.
  induction srev as [| d r IH]; intros i Hi.
  - simpl in *. lia.
  - rewrite size_cons in Hi. simpl.
    assert (Hd : d <> 0) by (intros ->; simpl in Hi; lia).
    rewrite IH.
    + destruct (Nat.eqb_spec d 1) as [-> | Hne].
      * rewrite Nat.div_1_r. lia.
      * pose proof (Nat.div_mod_eq i d). lia.
    + apply Nat.Div0.div_lt_upper_bound. lia.
Qed.

Lemma bcast_index_same (s : list nat) (i : nat) :
  i < size s -> bcast_index s s i = i.
Proof.
  intros Hi. unfold bcast_index. apply ravel_unravel. now rewrite size_rev.
Qed.

Lemma broadcast2_same_shape (f : num -> num -> num) (a b : ndarray) :
  shape a = shape b ->
  exists c, broadcast2 f a b = Some c /\ shape c = shape a /\
            length (data c) = size (shape a) /\
            forall i, i < size (shape a) ->
                      nth i (data c) NaN = f (nth i (data a) NaN) (nth i (data b) NaN).
Proof.
  intros Hs. unfold broadcast2. rewrite <- Hs, broadcast_shapes_same.
  eexists. split; [reflexivity |]. simpl. repeat split.
  - now rewrite length_map, length_seq.
  - intros i Hi.
    set (g := fun j => f (nth (bcast_index (shape a) (shape a) j) (data a) NaN)
                         (nth (bcast_index (shape a) (shape a) j) (data b) NaN)).
    rewrite (nth_indep _ NaN (g 0)) by now rewrite length_map, length_seq.
    rewrite (map_nth g). rewrite seq_nth by exact Hi. unfold g. simpl.
    now rewrite bcast_index_same.
Qed.

Lemma np_divide_same_shape_defined (a b : ndarray) :
  shape a = shape b -> exists c, np_divide a b = Some c.
Proof.
  intros Hs. destruct (broadcast2_same_shape div a b Hs) as (c & Hc & _).
  now exists c.
Qed.

Lemma broadcast2_shape (f : num -> num -> num) (a b c : ndarray) :
  broadcast2 f a b = Some c -> broadcast_shapes (shape a) (shape b) = Some (shape c).
Proof.
  unfold broadcast2. destruct (broadcast_shapes (shape a) (shape b)); [| discriminate].
  intros [= <-]. reflexivity.
Qed.

(** ** reset and step, call by call *)

Section Transitions.
Context {St : Type}.
Variable E : gym.Env St.

Local Abbreviation Self := (GymToUnityWrapper St).

Lemma reset_unfold (w : Self) :
  reset E w =
  let w1 := set_gym_env (fst (gym.reset E (_gym_env w))) (set_first_message false w) in
  match np_divide (snd (gym.reset E (_gym_env w))) (_obs_ratio w) with
  | Some q =>
      (inr tt, set_current_steps (decision_pair (_behavior_specs w) q zero) w1)
  | None => (inl ValueError, w1)
  end.
Proof.
  unfold reset, normalized_obs, gym_env_reset, bind, modify, gets, orelse, ret, raise.
  simpl. destruct (gym.reset E (_gym_env w)) as [s obs]. simpl.
  destruct (np_divide obs (_obs_ratio w)); reflexivity.
Qed.

Lemma step_fresh_unfold (w : Self) :
  _first_message w = true -> step E w = reset E w.
Proof.
  intros Hf. unfold step at 1, bind at 1, gets at 1. now rewrite Hf.
Qed.

Lemma step_running_unfold (w : Self) :
  _first_message w = false ->
  step E w =
  let r := gym.step E (_gym_env w) (_g_action w) in
  let obs := fst (fst (fst (snd r))) in
  let rew := snd (fst (fst (snd r))) in
  let done := snd (fst (snd r)) in
  let info := snd (snd r) in
  let w1 := set_gym_env (fst r) w in
  if done then
    match np_divide obs (_obs_ratio w) with
    | Some q =>
        (inr tt, set_current_steps (terminal_pair (_behavior_specs w) q rew info)
                   (set_first_message true w1))
    | None => (inl ValueError, set_first_message true w1)
    end
  else
    match np_divide obs (_obs_ratio w) with
    | Some q =>
        (inr tt, set_current_steps (decision_pair (_behavior_specs w) q rew) w1)
    | None => (inl ValueError, w1)
    end.
Proof.
  intros Hf.
  unfold step, normalized_obs, gym_env_step, bind, modify, gets, orelse, ret, raise.
  rewrite Hf.
  destruct (gym.step E (_gym_env w) (_g_action w)) as [s [[[obs rew] done] info]].
  simpl. destruct done; simpl; destruct (np_divide obs (_obs_ratio w)); reflexivity.
Qed.

Lemma reset_frame (w : Self) : same_configuration w (snd (reset E w)).
Proof.
  rewrite reset_unfold. cbv zeta.
  destruct (np_divide _ _); repeat split.
Qed.

Lemma step_frame (w : Self) : same_configuration w (snd (step E w)).
Proof.
  destruct (_first_message w) eqn:Hf.
  - rewrite step_fresh_unfold by exact Hf. apply reset_frame.
  - rewrite step_running_unfold by exact Hf. cbv zeta.
    destruct (snd (fst (snd _))); destruct (np_divide _ _); repeat split.
Qed.

Lemma advance_frame (c : Advance) (w : Self) :
  same_configuration w (snd (advance E c w)).
Proof. destruct c; [apply step_frame | apply reset_frame]. Qed.

Lemma decision_pair_exactly_one spec q rew :
  exactly_one_batch (decision_pair spec q rew).
Proof.
  left. split; [split; reflexivity |]. intros [H _]. discriminate H.
Qed.

Lemma terminal_pair_exactly_one spec q rew info :
  exactly_one_batch (terminal_pair spec q rew info).
Proof.
  right. split; [split; reflexivity |]. intros [H _]. discriminate H.
Qed.

(** A reset or a step that returns leaves one batch of one agent. *)
Lemma advance_exactly_one (c : Advance) (w w' : Self) :
  advance E c w = (inr tt, w') -> exactly_one_batch (_current_steps w').
Proof.
  assert (Hreset : forall w0 w1, reset E w0 = (inr tt, w1) ->
                                 exactly_one_batch (_current_steps w1)).
  { intros w0 w1. rewrite reset_unfold. cbv zeta.
    destruct (np_divide _ _); [| discriminate].
    intros [= <-]. apply decision_pair_exactly_one. }
  destruct c; simpl; [| apply Hreset].
  destruct (_first_message w) eqn:Hf.
  - rewrite step_fresh_unfold by exact Hf. apply Hreset.
  - rewrite step_running_unfold by exact Hf. cbv zeta.
    destruct (snd (fst (snd _))); (destruct (np_divide _ _); [| discriminate]);
      intros [= <-].
    + apply terminal_pair_exactly_one.
    + apply decision_pair_exactly_one.
Qed.

Lemma run_cons_returns (c : Advance) (rest : list Advance) (w w' : Self) :
  run E (c :: rest) w = (inr tt, w') ->
  exists w1, advance E c w = (inr tt, w1) /\ run E rest w1 = (inr tt, w').
Proof.
  simpl. unfold bind. destruct (advance E c w) as [[e | []] w1].
  - discriminate.
  - intros H. now exists w1.
Qed.

Lemma run_exactly_one (calls : list Advance) :
  forall w w', calls <> [] -> run E calls w = (inr tt, w') ->
               exactly_one_batch (_current_steps w').
Proof.
  induction calls as [| c rest IH]; intros w w' Hne Hrun; [congruence |].
  apply run_cons_returns in Hrun. destruct Hrun as (w1 & Hc & Hrest).
  destruct rest as [| c' rest'].
  - simpl in Hrest. unfold ret in Hrest. injection Hrest as <-.
    eapply advance_exactly_one; eassumption.
  - eapply IH; [discriminate | eassumption].
Qed.

(** Over an environment whose observations have the shape of the ratio,
    a reset or a step returns. *)
Lemma advance_returns (c : Advance) (w : Self) :
  (forall s, shape (snd (gym.reset E s)) = shape (_obs_ratio w)) ->
  (forall s a, shape (fst (fst (fst (snd (gym.step E s a))))) = shape (_obs_ratio w)) ->
  exists w', advance E c w = (inr tt, w').
Proof.
  intros Hr Hs.
  assert (Hreset : exists w', reset E w = (inr tt, w')).
  { rewrite reset_unfold. cbv zeta.
    destruct (np_divide_same_shape_defined _ _ (Hr (_gym_env w))) as [q ->].
    eexists. reflexivity. }
  destruct c; simpl; [| exact Hreset].
  destruct (_first_message w) eqn:Hf.
  - rewrite step_fresh_unfold by exact Hf. exact Hreset.
  - rewrite step_running_unfold by exact Hf. cbv zeta.
    destruct (np_divide_same_shape_defined _ _ (Hs (_gym_env w) (_g_action w)))
      as [q ->].
    destruct (snd (fst (snd _))); eexists; reflexivity.
Qed.

Lemma run_returns (calls : list Advance) :
  forall w,
    (forall s, shape (snd (gym.reset E s)) = shape (_obs_ratio w)) ->
    (forall s a, shape (fst (fst (fst (snd (gym.step E s a))))) = shape (_obs_ratio w)) ->
    exists w', run E calls w = (inr tt, w').
Proof.
  induction calls as [| c rest IH]; intros w Hr Hs.
  - exists w. reflexivity.
  - destruct (advance_returns c w Hr Hs) as [w1 Hc].
    pose proof (advance_frame c w) as (_ & _ & Hratio & _).
    rewrite Hc in Hratio. simpl in Hratio.
    destruct (IH w1) as [w' Hrun].
    + intros s. rewrite Hratio. apply Hr.
    + intros s a. rewrite Hratio. apply Hs.
    + exists w'. simpl. unfold bind. rewrite Hc. exact Hrun.
Qed.

End Transitions.

Lemma assign_where_gt_some (m r : ndarray) (q : Qc) (v : num) :
  assign_where_gt m q v = Some r ->
  shape m <> [] /\ shape r = shape m /\
  data r = map (fun x => if gt x q then v else x) (data m).
Proof.
  unfold assign_where_gt. destruct (shape m) eqn:Hs; [discriminate |].
  intros [= <-]. simpl. repeat split; congruence.
Qed.

Lemma assign_where_gt_defined (m : ndarray) (q : Qc) (v : num) :
  shape m <> [] -> exists r, assign_where_gt m q v = Some r.
Proof.
  unfold assign_where_gt. destruct (shape m); [congruence |]. eauto.
Qed.

(** ** Construction *)

Section Construction.
Context {St : Type}.
Variable E : gym.Env St.

Lemma ratio_of_bounds_shape (low high r : ndarray) :
  ratio_of_bounds low high = Some r -> shape high = shape low -> shape r = shape low.
Proof.
  unfold ratio_of_bounds, np_maximum. intros Hr Hs.
  destruct (broadcast2 maximum high (np_negative low)) as [m |] eqn:Hm; [| discriminate].
  apply assign_where_gt_some in Hr. destruct Hr as (_ & -> & _).
  apply broadcast2_shape in Hm. simpl in Hm.
  rewrite Hs, broadcast_shapes_same in Hm. now injection Hm as <-.
Qed.

(** What a successful construction leaves in the object. *)
Lemma init_returns (gym_env : St) (name : option string) (w : GymToUnityWrapper St) :
  __init__ E gym_env name = inr w ->
  _gym_env w = gym_env /\
  _first_message w = true /\
  _g_action w = gym.ActNone /\
  _current_steps w = (DecisionSteps_empty (_behavior_specs w),
                      TerminalSteps_empty (_behavior_specs w)) /\
  observation_shapes (_behavior_specs w) = [gym.space_shape (gym.observation_space E)] /\
  (exists low high, gym.observation_space E = gym.Box low high /\
                    ratio_of_bounds low high = Some (_obs_ratio w)) /\
  match gym.action_space E with
  | gym.Box low high =>
      action_type (_behavior_specs w) = CONTINUOUS /\
      action_shape (_behavior_specs w) = ScalarShape (np_prod (shape low)) /\
      exists r, ratio_of_bounds low high = Some r /\ _act_ratio w = Some r
  | gym.Discrete n =>
      action_type (_behavior_specs w) = DISCRETE /\
      action_shape (_behavior_specs w) = TupleShape [n] /\
      _act_ratio w = None
  | gym.Other _ => False
  end.
Proof.
  unfold __init__.
  destruct (gym.action_space E) as [alow ahigh | n | arepr] eqn:Ha;
    [destruct (ratio_of_bounds alow ahigh) as [ar |] eqn:Har | |];
    try discriminate;
    (destruct (gym.observation_space E) as [olow ohigh | m | orepr] eqn:Ho;
     [destruct (ratio_of_bounds olow ohigh) as [or |] eqn:Hor | |];
     try discriminate);
    intros [= <-]; simpl; repeat split; eauto.
Qed.

Lemma init_obs_ratio_shape (gym_env : St) (name : option string)
                           (w : GymToUnityWrapper St) :
  __init__ E gym_env name = inr w ->
  observes_in_space E ->
  shape (_obs_ratio w) = gym.space_shape (gym.observation_space E).
Proof.
  intros Hinit (Hbox & _).
  destruct (init_returns _ _ Hinit) as (_ & _ & _ & _ & _ & (low & high & Ho & Hr) & _).
  rewrite Ho. simpl. eapply ratio_of_bounds_shape; eauto.
Qed.

Lemma get_steps_returns (w : GymToUnityWrapper St) :
  get_steps (_behavior_name w) w = (inr (_current_steps w), w).
Proof.
  unfold get_steps. enter_method. reflexivity.
Qed.

End Construction.

(** ** The concrete environments *)

Lemma scenario_wrapper_constructed :
  __init__ scenario_env [] None = inr scenario_wrapper.
Proof. reflexivity. Qed.

Lemma discrete_wrapper_constructed :
  __init__ discrete_env [] None = inr discrete_wrapper.
Proof. reflexivity. Qed.

Lemma matrix_wrapper_constructed :
  __init__ matrix_env [] None = inr matrix_wrapper.
Proof. reflexivity. Qed.

Lemma recording_env_observes (aspace : gym.Space) (low high obs : ndarray) (h : nat) :
  shape high = shape low -> shape obs = shape low ->
  observes_in_space (recording_env aspace (gym.Box low high) obs h).
Proof.
  intros Hb Ho. repeat split; simpl; try (intros; exact Ho).
  intros l' h' [= <- <-]. exact Hb.
Qed.

(** ** The step pair *)

Section StepPair.
Context {St : Type}.
Variable E : gym.Env St.

Lemma run_frame (calls : list Advance) :
  forall w : GymToUnityWrapper St, same_configuration w (snd (run E calls w)).
Proof.
  induction calls as [| c rest IH]; intros w.
  - repeat split.
  - simpl. unfold bind.
    pose proof (advance_frame E c w) as Hc.
    destruct (advance E c w) as [[e | []] w1]; simpl in Hc |- *.
    + exact Hc.
    + specialize (IH w1). unfold same_configuration in *.
      destruct IH as (H1 & H2 & H3 & H4 & H5), Hc as (G1 & G2 & G3 & G4 & G5).
      repeat split; congruence.
Qed.

(** C1. Right after construction both batches of the step pair are empty.
    After any non-empty sequence of [step()] and [reset()] calls that
    returned, [get_steps] returns a pair in which exactly one holds: the
    decision batch has one agent and the terminal batch none, or the
    decision batch has none and the terminal batch one. Over an environment
    that keeps to the gym interface every such sequence returns. *)
Theorem step_pair_invariant (gym_env : St) (name : option string)
                            (w0 : GymToUnityWrapper St) :
  __init__ E gym_env name = inr w0 ->
  (get_steps (_behavior_name w0) w0 = (inr (_current_steps w0), w0) /\
   d_len (fst (_current_steps w0)) = 0 /\ t_len (snd (_current_steps w0)) = 0) /\
  (forall calls w, calls <> [] -> run E calls w0 = (inr tt, w) ->
     exists cs, get_steps (_behavior_name w) w = (inr cs, w) /\
                exactly_one_batch cs) /\
  (observes_in_space E -> forall calls, exists w, run E calls w0 = (inr tt, w)).
Proof.
  intros Hinit.
  pose proof (init_returns _ _ _ Hinit) as (_ & _ & _ & Hcs & _).
  repeat split.
  - apply get_steps_returns.
  - now rewrite Hcs.
  - now rewrite Hcs.
  - intros calls w Hne Hrun. exists (_current_steps w). split.
    + apply get_steps_returns.
    + eapply run_exactly_one; eassumption.
  - intros Hobs calls.
    pose proof (@init_obs_ratio_shape _ E _ _ _ Hinit Hobs) as Hshape.
    destruct Hobs as (_ & Hr & Hs).
    apply run_returns; intros; rewrite Hshape; [apply Hr | apply Hs].
Qed.



(** C6. A [reset()] over an environment whose initial observation has the
    shape of the observation ratio returns and leaves a decision batch of
    exactly one agent, the fixed agent id, with reward 0 and the initial
    observation divided entry by entry by the ratio, and an empty terminal
    batch; the episode is then running. *)
Theorem reset_decision_batch (w : GymToUnityWrapper St) :
  let obs := snd (gym.reset E (_gym_env w)) in
  shape obs = shape (_obs_ratio w) ->
  exists w' q,
    reset E w = (inr tt, w') /\
    d_len (fst (_current_steps w')) = 1 /\
    d_agent_id (fst (_current_steps w')) = [_AGENT_ID] /\
    t_len (snd (_current_steps w')) = 0 /\
    d_reward (fst (_current_steps w')) = [zero] /\
    d_action_mask (fst (_current_steps w')) = None /\
    d_obs (fst (_current_steps w')) = [mkarr (1 :: shape obs) (data q)] /\
    length (data q) = size (shape obs) /\
    (forall i, i < size (shape obs) ->
       nth i (data q) NaN = div (nth i (data obs) NaN) (nth i (data (_obs_ratio w)) NaN)) /\
    _first_message w' = false /\
    _gym_env w' = fst (gym.reset E (_gym_env w)).
Proof.
  intros obs Hshape.
  destruct (broadcast2_same_shape div obs (_obs_ratio w) Hshape)
    as (q & Hq & Hqs & Hlen & Hnth).
  rewrite reset_unfold. cbv zeta. fold obs. unfold np_divide. rewrite Hq.
  eexists. exists q. split; [reflexivity |]. simpl.
  unfold expand_dims0. rewrite Hqs. repeat split; assumption.
Qed.

(** C10. [reset()] leaves the pending action as it was, however it ends.
    A [step()] after a [reset()] that returned therefore hands the action
    stored before the reset to the environment's [step], and that action
    is [None] when only [step()] and [reset()] were called since
    construction. *)
Theorem reset_keeps_pending_action (w : GymToUnityWrapper St) :
  _g_action (snd (reset E w)) = _g_action w /\
  (forall w1, reset E w = (inr tt, w1) ->
     _gym_env (snd (step E w1))
     = fst (gym.step E (fst (gym.reset E (_gym_env w))) (_g_action w))) /\
  (forall gym_env name calls, __init__ E gym_env name = inr w ->
     _g_action (snd (run E calls w)) = gym.ActNone).
Proof.
  split; [apply reset_frame |]. split.
  - intros w1. rewrite reset_unfold. cbv zeta.
    destruct (np_divide _ _) as [q |]; [| discriminate].
    intros [= <-]. rewrite step_running_unfold by reflexivity. cbv zeta. simpl.
    destruct (snd (fst (snd _))); destruct (np_divide _ _); reflexivity.
  - intros gym_env name calls Hinit.
    pose proof (run_frame calls w) as (_ & _ & _ & _ & Hg). rewrite Hg.
    now apply init_returns in Hinit.
Qed.

End StepPair.

(** ** Submitting actions *)

Lemma tuple_eqb_true (s : list nat) (t : list pynum) :
  tuple_eqb s t = true <-> s = map py_value t.
Proof.
  revert t. induction s as [| d s IH]; intros [| x t]; simpl;
    try (split; [discriminate | intros [=]]); [tauto |].
  rewrite andb_true_iff, Nat.eqb_eq, IH. split.
  - intros [-> ->]. reflexivity.
  - intros [= -> ->]. split; reflexivity.
Qed.

Lemma astype_shape (t : np_dtype) (a : ndarray) : shape (astype t a) = shape a.
Proof. destruct t; reflexivity. Qed.

Section Actions.
Context {St : Type}.
Variable E : gym.Env St.
Variable action_size : BehaviorSpec -> pynum.

(** C7. With an empty decision batch, [set_actions] under the wrapper's
    behavior name returns without raising, whatever the action array, and
    leaves the object, the pending action included, as it was. *)
Theorem set_actions_without_agent (w : GymToUnityWrapper St) (action : ndarray) :
  d_len (fst (_current_steps w)) = 0 ->
  set_actions E action_size (_behavior_name w) action w = (inr tt, w).
Proof.
  intros Hn. unfold set_actions. enter_method. rewrite Hn. reflexivity.
Qed.

(** C4. With one agent in the decision batch, [set_actions] under the
    wrapper's behavior name with an action whose shape is not
    (1, action_size) raises a UnityActionException whose message gives the
    behavior name, the expected shape (1, action_size) and the shape
    received; the object, the pending action included, stays as it was. *)
Theorem set_actions_wrong_shape (w : GymToUnityWrapper St) (action : ndarray) :
  d_len (fst (_current_steps w)) = 1 ->
  shape action <> [1; py_value (action_size (_behavior_specs w))] ->
  set_actions E action_size (_behavior_name w) action w
  = (inl (UnityActionException
            ("The behavior " ++ _behavior_name w
             ++ " needs an input of dimension "
             ++ show_tuple [PyInt 1; action_size (_behavior_specs w)]
             ++ " but received input of dimension "
             ++ show_tuple (map PyInt (shape action)))), w).
Proof.
  intros Hn Hshape. unfold set_actions. enter_method. rewrite Hn. simpl.
  destruct (tuple_eqb (shape action) [PyInt 1; action_size (_behavior_specs w)])
    eqn:Heq.
  - apply tuple_eqb_true in Heq. contradiction.
  - reflexivity.
Qed.

(** C9, as the code has it. [set_action_for_agent] under the wrapper's
    behavior name and agent id, with an action of shape (action_size,),
    never looks at the step pair: it stores the pending action also when
    the decision batch is empty. Over a discrete space with a positive
    action size it stores the first entry as an integer; over a box whose
    ratio has the shape of the action it stores the action divided entry
    by entry by the ratio. *)
Theorem set_action_for_agent_stores (w : GymToUnityWrapper St) (action : ndarray) :
  shape action = [py_value (action_size (_behavior_specs w))] ->
  let typed :=
    astype (if is_action_continuous (_behavior_specs w) then float32 else int32)
           action in
  (forall n, gym.action_space E = gym.Discrete n ->
     0 < py_value (action_size (_behavior_specs w)) ->
     set_action_for_agent E action_size (_behavior_name w) _AGENT_ID action w
     = (inr tt, set_g_action (gym.ActInt (py_int (nth 0 (data typed) NaN))) w)) /\
  (forall low high r, gym.action_space E = gym.Box low high ->
     _act_ratio w = Some r -> shape r = shape action ->
     exists q,
       set_action_for_agent E action_size (_behavior_name w) _AGENT_ID action w
       = (inr tt, set_g_action (gym.ActArr q) w) /\
       shape q = shape action /\
       forall i, i < size (shape action) ->
         nth i (data q) NaN = div (nth i (data typed) NaN) (nth i (data r) NaN)).
Proof.
  intros Hshape typed.
  assert (Heq : tuple_eqb (shape action) [action_size (_behavior_specs w)] = true)
    by now apply tuple_eqb_true.
  split.
  - intros n Hspace Hpos.
    unfold set_action_for_agent. enter_method. rewrite Heq. simpl. rewrite Hspace.
    fold typed. unfold getitem0_scalar.
    assert (Hts : shape typed = shape action) by apply astype_shape.
    rewrite Hts, Hshape.
    destruct (py_value (action_size (_behavior_specs w))); [lia | reflexivity].
  - intros low high r Hspace Hratio Hr.
    assert (Hts : shape typed = shape r)
      by (unfold typed; now rewrite astype_shape).
    destruct (broadcast2_same_shape div typed r Hts) as (q & Hq & Hqs & _ & Hnth).
    exists q. repeat split.
    + unfold set_action_for_agent. enter_method. rewrite Heq. simpl. rewrite Hspace, Hratio.
      fold typed. simpl. unfold np_divide. rewrite Hq. reflexivity.
    + rewrite Hqs, Hts. exact Hr.
    + intros i Hi. apply Hnth. now rewrite Hts, Hr.
Qed.

End Actions.

(** ** The behavior spec *)

Lemma np_prod_value (s : list nat) : py_value (np_prod s) = size s.
Proof. destruct s; reflexivity. Qed.

(** C3. After a successful construction over a box action space the
    behavior spec has an action size equal to the product of the
    dimensions of the space's shape and a continuous action type; over a
    discrete space of [n] categories it has action size [n] and an action
    type that is not continuous. *)
Theorem behavior_spec_of_action_space {St : Type} (E : gym.Env St) (gym_env : St)
    (name : option string) (w : GymToUnityWrapper St) :
  __init__ E gym_env name = inr w ->
  (forall low high, gym.action_space E = gym.Box low high ->
     py_value (base_env.action_size (_behavior_specs w))
     = size (gym.space_shape (gym.action_space E)) /\
     is_action_continuous (_behavior_specs w) = true) /\
  (forall n, gym.action_space E = gym.Discrete n ->
     base_env.action_size (_behavior_specs w) = PyInt n /\
     is_action_continuous (_behavior_specs w) = false).
Proof.
  intros Hinit. pose proof (init_returns _ _ _ Hinit) as (_ & _ & _ & _ & _ & _ & Ha).
  split.
  - intros low high Hspace. rewrite Hspace in Ha |- *.
    destruct Ha as (Ht & Hs & _).
    unfold base_env.action_size, is_action_continuous. rewrite Ht, Hs. simpl.
    split; [apply np_prod_value | reflexivity].
  - intros n Hspace. rewrite Hspace in Ha. destruct Ha as (Ht & Hs & _).
    unfold base_env.action_size, is_action_continuous. rewrite Ht, Hs. simpl.
    now rewrite Nat.add_0_r.
Qed.

(** ** Normalisation *)

Lemma assign_where_gt_nth (m r : ndarray) (i : nat) :
  assign_where_gt m threshold one = Some r ->
  nth i (data r) NaN
  = if gt (nth i (data m) NaN) threshold then one else nth i (data m) NaN.
Proof.
  intros Hr. apply assign_where_gt_some in Hr. destruct Hr as (_ & _ & ->).
  set (f := fun x : num => if gt x threshold then one else x).
  change NaN with (f NaN) at 1. now rewrite map_nth.
Qed.







(** ** The scenario: actions in [-2, 2], observations in [0, 10] *)

Lemma Fin_canon (a b : Qc) : (this a == this b)%Q -> Fin a = Fin b.
Proof. intros H. f_equal. now apply Qc_is_canon. Qed.

Lemma scenario_ratios :
  ratio_of_bounds (vec [-2 # 1]) (vec [2 # 1]) = Some (vec [2 # 1]) /\
  ratio_of_bounds (vec [0 # 1]) (vec [10 # 1]) = Some (vec [10 # 1]).
Proof. split; reflexivity. Qed.

Lemma scenario_observation :
  np_divide (vec [5 # 1]) (vec [10 # 1]) = Some (vec [1 # 2]).
Proof.
  unfold np_divide, broadcast2, vec. simpl.
  do 2 f_equal. f_equal. apply Fin_canon. reflexivity.
Qed.

(** C5. Over an environment with a box of actions of size 1 bounded by -2
    and 2, a box of observations of size 1 bounded by 0 and 10 and the
    initial observation [5]: construction succeeds with observation
    ratio [10] and action ratio [2]; [reset()] leaves the observation
    [[0.5]] in the decision batch; [set_actions(name, [[1.0]])] stores
    the pending action [0.5]; the next [step()] hands [0.5] to the
    environment's [step]. The action size of the behavior spec is the
    size 1 of the action space. *)
Theorem scenario_run {St : Type} (E : gym.Env St)
    (action_size : BehaviorSpec -> pynum) (s0 : St) (name : option string) :
  py_value (action_size scenario_spec) = 1 ->
  gym.action_space E = scenario_action_space ->
  gym.observation_space E = scenario_observation_space ->
  snd (gym.reset E s0) = vec [5 # 1] ->
  exists w0 w1 w2,
    __init__ E s0 name = inr w0 /\
    _obs_ratio w0 = vec [10 # 1] /\
    _act_ratio w0 = Some (vec [2 # 1]) /\
    reset E w0 = (inr tt, w1) /\
    d_obs (fst (_current_steps w1)) = [mkarr [1; 1] [Fin (Q2Qc (1 # 2))]] /\
    d_len (fst (_current_steps w1)) = 1 /\
    set_actions E action_size (_behavior_name w1) (mkarr [1; 1] [one]) w1
    = (inr tt, w2) /\
    _g_action w2 = gym.ActArr (vec [1 # 2]) /\
    _gym_env (snd (step E w2))
    = fst (gym.step E (fst (gym.reset E s0)) (gym.ActArr (vec [1 # 2]))).
Proof.
  intros Hsize Ha Ho Hobs.
  destruct scenario_ratios as (Hact & Hobsr).
  set (behavior_name := match name with
                        | None => _DEFAULT_BEHAVIOR_NAME
                        | Some n => n
                        end).
  set (w0 := mkWrapper s0 true behavior_name (Some (vec [2 # 1])) (vec [10 # 1])
               scenario_spec gym.ActNone (empty_pair scenario_spec)).
  set (w1 := set_current_steps (decision_pair scenario_spec (vec [1 # 2]) zero)
               (set_gym_env (fst (gym.reset E s0)) (set_first_message false w0))).
  set (w2 := set_g_action (gym.ActArr (vec [1 # 2])) w1).
  assert (Hreset : reset E w0 = (inr tt, w1)).
  { rewrite reset_unfold. cbv zeta. simpl. rewrite Hobs, scenario_observation.
    reflexivity. }
  assert (Hset : set_actions E action_size (_behavior_name w1)
                   (mkarr [1; 1] [one]) w1 = (inr tt, w2)).
  { unfold set_actions. enter_method. rewrite Hsize, Ha. reflexivity. }
  exists w0, w1, w2. repeat split.
  - unfold __init__. rewrite Ha, Ho. unfold scenario_action_space,
      scenario_observation_space. rewrite Hact, Hobsr. reflexivity.
  - exact Hreset.
  - exact Hset.
  - rewrite step_running_unfold by reflexivity. cbv zeta. simpl.
    destruct (snd (fst (snd _))); destruct (np_divide _ _); reflexivity.
Qed.

(** *** Runs of the scenario environment *)

Lemma step_pair_invariant_witness :
  exists w cs,
    run scenario_env [DoStep; DoStep; DoStep; DoStep; DoReset] scenario_wrapper
      = (inr tt, w) /\
    get_steps (_behavior_name w) w = (inr cs, w) /\ exactly_one_batch cs.
Proof.
  destruct (@step_pair_invariant _ scenario_env [] None scenario_wrapper eq_refl)
    as (_ & Hinv & Hret).
  destruct (Hret (@recording_env_observes scenario_action_space (vec [0 # 1])
                        (vec [10 # 1]) (vec [5 # 1]) 2 eq_refl eq_refl)
                 [DoStep; DoStep; DoStep; DoStep; DoReset]) as [w Hw].
  exists w.
  assert (Hne : [DoStep; DoStep; DoStep; DoStep; DoReset] <> []) by discriminate.
  destruct (Hinv _ w Hne Hw) as (cs & Hget & Hone).
  exists cs. repeat split; assumption.
Defined.


Lemma reset_decision_batch_witness :
  exists w',
    reset scenario_env scenario_wrapper = (inr tt, w') /\
    d_len (fst (_current_steps w')) = 1 /\
    t_len (snd (_current_steps w')) = 0 /\
    d_reward (fst (_current_steps w')) = [zero].
Proof.
  destruct (@reset_decision_batch _ scenario_env scenario_wrapper eq_refl)
    as (w' & q & Hr & Hd & _ & Ht & Hrew & _).
  exists w'. repeat split; assumption.
Defined.

Lemma reset_keeps_pending_action_witness :
  _gym_env (snd (run scenario_env [DoReset; DoStep] scenario_wrapper))
  = [CallStep gym.ActNone; CallReset] /\
  _g_action (snd (run scenario_env [DoStep; DoReset] scenario_wrapper)) = gym.ActNone.
Proof.
  destruct (@reset_keeps_pending_action _ scenario_env scenario_wrapper)
    as (_ & Hstep & Hnone).
  split.
  - exact (Hstep (snd (reset scenario_env scenario_wrapper)) eq_refl).
  - exact (Hnone [] None [DoStep; DoReset] eq_refl).
Defined.

Lemma scenario_run_witness :
  exists w2,
    _g_action w2 = gym.ActArr (vec [1 # 2]) /\
    _gym_env (snd (step scenario_env w2))
    = [CallStep (gym.ActArr (vec [1 # 2])); CallReset].
Proof.
  destruct (@scenario_run _ scenario_env base_env.action_size [] None
              eq_refl eq_refl eq_refl eq_refl)
    as (w0 & w1 & w2 & _ & _ & _ & _ & _ & _ & _ & Hg & Hstep).
  exists w2. split; [exact Hg | exact Hstep].
Defined.

Lemma behavior_spec_of_action_space_witness :
  (py_value (base_env.action_size (_behavior_specs scenario_wrapper)) = 1 /\
   is_action_continuous (_behavior_specs scenario_wrapper) = true) /\
  (base_env.action_size (_behavior_specs discrete_wrapper) = PyInt 4 /\
   is_action_continuous (_behavior_specs discrete_wrapper) = false).
Proof.
  split.
  - exact (proj1 (@behavior_spec_of_action_space _ scenario_env [] None
                    scenario_wrapper eq_refl) _ _ eq_refl).
  - exact (proj2 (@behavior_spec_of_action_space _ discrete_env [] None
                    discrete_wrapper eq_refl) 4 eq_refl).
Defined.

(** The scenario wrapper after a reset, awaiting a decision, and after the
    step that ends the episode. *)
Lemma set_actions_wrong_shape_witness :
  set_actions scenario_env base_env.action_size "gym_behavior_name"
    (mkarr [2; 1] [one; one]) (snd (reset scenario_env scenario_wrapper))
  = (inl (UnityActionException
            "The behavior gym_behavior_name needs an input of dimension (1, 1) but received input of dimension (2, 1)"),
     snd (reset scenario_env scenario_wrapper)).
Proof.
  apply (@set_actions_wrong_shape _ scenario_env base_env.action_size
           (snd (reset scenario_env scenario_wrapper)) (mkarr [2; 1] [one; one])).
  - reflexivity.
  - discriminate.
Defined.

Lemma set_actions_without_agent_witness :
  set_actions scenario_env base_env.action_size "gym_behavior_name"
    (mkarr [1; 1] [one])
    (snd (run scenario_env [DoReset; DoStep; DoStep] scenario_wrapper))
  = (inr tt, snd (run scenario_env [DoReset; DoStep; DoStep] scenario_wrapper)).
Proof.
  apply (@set_actions_without_agent _ scenario_env base_env.action_size
           (snd (run scenario_env [DoReset; DoStep; DoStep] scenario_wrapper))).
  reflexivity.
Defined.

Lemma set_action_for_agent_stores_witness :
  d_len (fst (_current_steps
                (snd (run scenario_env [DoReset; DoStep; DoStep] scenario_wrapper)))) = 0 /\
  exists q,
    set_action_for_agent scenario_env base_env.action_size "gym_behavior_name" 1
      (vec [1 # 1])
      (snd (run scenario_env [DoReset; DoStep; DoStep] scenario_wrapper))
    = (inr tt,
       set_g_action (gym.ActArr q)
         (snd (run scenario_env [DoReset; DoStep; DoStep] scenario_wrapper))) /\
    shape q = [1].
Proof.
  split; [reflexivity |].
  destruct (proj2 (@set_action_for_agent_stores _ scenario_env base_env.action_size
                     (snd (run scenario_env [DoReset; DoStep; DoStep] scenario_wrapper))
                     (vec [1 # 1]) eq_refl)
                  (vec [-2 # 1]) (vec [2 # 1]) (vec [2 # 1]) eq_refl eq_refl eq_refl)
    as (q & Hset & Hshape & _).
  exists q. split; [exact Hset | exact Hshape].
Defined.

(** C9 fails over a box of actions of shape (2, 3): the action size is 6,
    an action of shape (6,) passes the shape check, and numpy cannot
    divide it by the ratio of shape (2, 3); the call raises ValueError
    and stores nothing. *)
Lemma set_action_for_agent_matrix_box_raises :
  __init__ matrix_env [] None = inr matrix_wrapper /\
  d_len (fst (_current_steps matrix_wrapper)) = 0 /\
  shape (mkarr [6] (repeat one 6))
  = [py_value (base_env.action_size (_behavior_specs matrix_wrapper))] /\
  set_action_for_agent matrix_env base_env.action_size
    (_behavior_name matrix_wrapper) _AGENT_ID (mkarr [6] (repeat one 6))
    matrix_wrapper
  = (inl ValueError, matrix_wrapper) /\
  _g_action matrix_wrapper = gym.ActNone.
Proof. repeat split. Qed.

(** * Further properties of the wrapper *)

(** ** Construction: which spaces are taken *)

Section ConstructionOutcomes.
Context {St : Type}.
Variable E : gym.Env St.

(** X1. An action space that is neither a box nor discrete makes the
    constructor raise UnityActionException with the space printed in the
    message, whatever the observation space is: the action space is
    looked at first. *)
Theorem init_unknown_action_space (gym_env : St) (name : option string)
                                  (repr : string) :
  gym.action_space E = gym.Other repr ->
  __init__ E gym_env name
  = inl (UnityActionException ("Unknown action type " ++ repr)).
Proof.
  intros Ha. unfold __init__. rewrite Ha. reflexivity.
Qed.

(** X2. With a discrete action space, or a box of actions whose ratio the
    constructor can compute (bounds that broadcast and are not
    0-dimensional), an observation space that is not a box makes the
    constructor raise UnityObservationException with the space printed in
    the message. *)
Theorem init_unknown_observation_space (gym_env : St) (name : option string) :
  match gym.action_space E with
  | gym.Box low high => ratio_of_bounds low high <> None
  | gym.Discrete _ => True
  | gym.Other _ => False
  end ->
  (forall low high, gym.observation_space E <> gym.Box low high) ->
  __init__ E gym_env name
  = inl (UnityObservationException
           ("Unknown observation type " ++ gym.repr (gym.observation_space E))).
Proof.
  intros Ha Ho. unfold __init__.
  destruct (gym.action_space E) as [alow ahigh | n | r]; [| | contradiction].
  - destruct (ratio_of_bounds alow ahigh); [| congruence].
    destruct (gym.observation_space E) as [olow ohigh | m | r];
      [now destruct (Ho olow ohigh) | reflexivity | reflexivity].
  - destruct (gym.observation_space E) as [olow ohigh | m | r];
      [now destruct (Ho olow ohigh) | reflexivity | reflexivity].
Qed.

Lemma ratio_of_bounds_defined (low high : ndarray) :
  shape low <> [] ->
  shape high = shape low ->
  exists r, ratio_of_bounds low high = Some r /\ shape r = shape low.
Proof.
  intros Hne Hs. unfold ratio_of_bounds, np_maximum.
  assert (Hn : shape high = shape (np_negative low)) by exact Hs.
  destruct (broadcast2_same_shape maximum high (np_negative low) Hn)
    as (m & Hm & Hms & _).
  rewrite Hm.
  destruct (@assign_where_gt_defined m threshold one) as [r Hr]; [congruence |].
  exists r. split; [exact Hr |].
  apply assign_where_gt_some in Hr. destruct Hr as (_ & -> & _). congruence.
Qed.

(** X3. Over a box or discrete action space and a box of observations, each
    box with bounds of one shape that is not 0-dimensional, the
    constructor returns. The wrapper is named by the name given, or by
    "gym_behavior_name" without one, and its one behavior has the
    observation shape of the space. *)
Theorem init_on_supported_spaces (gym_env : St) (name : option string)
                                 (olow ohigh : ndarray) :
  match gym.action_space E with
  | gym.Box low high => shape high = shape low /\ shape low <> []
  | gym.Discrete _ => True
  | gym.Other _ => False
  end ->
  gym.observation_space E = gym.Box olow ohigh ->
  shape ohigh = shape olow ->
  shape olow <> [] ->
  exists w,
    __init__ E gym_env name = inr w /\
    _behavior_name w = match name with
                       | Some n => n
                       | None => "gym_behavior_name"%string
                       end /\
    behavior_specs w = [(_behavior_name w, _behavior_specs w)] /\
    observation_shapes (_behavior_specs w) = [shape olow] /\
    shape (_obs_ratio w) = shape olow /\
    _gym_env w = gym_env.
Proof.
  intros Ha Ho Hos Hone.
  destruct (@ratio_of_bounds_defined olow ohigh Hone Hos) as (r & Hr & Hrs).
  unfold __init__. rewrite Ho.
  destruct (gym.action_space E) as [alow ahigh | n | repr]; [| | contradiction].
  - destruct Ha as (Ha & Hane).
    destruct (@ratio_of_bounds_defined alow ahigh Hane Ha) as (ar & Har & _).
    rewrite Har, Hr. eexists. split; [reflexivity |]. simpl.
    repeat split; assumption.
  - rewrite Hr. eexists. split; [reflexivity |]. simpl.
    repeat split; assumption.
Qed.

End ConstructionOutcomes.

Lemma init_unknown_action_space_witness :
  __init__ tuple_env [] None
  = inl (UnityActionException "Unknown action type Tuple(Discrete(2), Discrete(3))").
Proof.
  exact (@init_unknown_action_space _ tuple_env [] None
           "Tuple(Discrete(2), Discrete(3))" eq_refl).
Defined.

Lemma init_unknown_observation_space_witness :
  __init__ discrete_observation_env [] None
  = inl (UnityObservationException "Unknown observation type Discrete(5)").
Proof.
  apply (@init_unknown_observation_space _ discrete_observation_env [] None).
  - exact I.
  - intros low high. discriminate.
Defined.

Lemma init_on_supported_spaces_witness :
  exists w,
    __init__ discrete_env [] (Some "CartPole"%string) = inr w /\
    _behavior_name w = "CartPole"%string.
Proof.
  assert (Hshape : shape (vec [0 # 1]) <> []) by discriminate.
  destruct (@init_on_supported_spaces _ discrete_env [] (Some "CartPole"%string)
              (vec [0 # 1]) (vec [10 # 1]) I eq_refl eq_refl Hshape)
    as (w & Hinit & Hname & _).
  exists w. split; [exact Hinit | exact Hname].
Defined.

(** ** The normalisation ratio *)

Lemma div_one (x : num) : div x one = to_float x.
Proof.
  unfold div. destruct (to_float x) as [a | | | | s b z] eqn:Hx; try reflexivity.
  - unfold float_div, to_float, one. change ((Q2Qc 1 ?= Q2Qc 0)%Qc) with Gt.
    cbv iota. f_equal. change (Q2Qc 1) with 1%Qc. field. discriminate.
  - destruct x; discriminate Hx.
Qed.

Lemma neg_not_nan (x : num) : x <> NaN -> neg x <> NaN.
Proof. destruct x; simpl; congruence. Qed.

(** The maximum with an infinite upper bound, or with the negation of an
    infinite lower bound, is infinite. *)
Lemma maximum_pinf_l (y : num) : y <> NaN -> maximum PInf y = PInf.
Proof. destruct y; simpl; congruence. Qed.

Lemma maximum_pinf_r (x : num) : x <> NaN -> maximum x PInf = PInf.
Proof. destruct x; simpl; congruence. Qed.

Lemma np_negative_nth (a : ndarray) (i : nat) :
  nth i (data (np_negative a)) NaN = neg (nth i (data a) NaN).
Proof. unfold np_negative. simpl. change NaN with (neg NaN) at 1. apply map_nth. Qed.

(** The entry of the ratio at a position of the bounds. *)
Lemma ratio_of_bounds_nth (low high r : ndarray) (i : nat) :
  shape high = shape low ->
  ratio_of_bounds low high = Some r ->
  i < size (shape low) ->
  nth i (data r) NaN
  = let m := maximum (nth i (data high) NaN) (neg (nth i (data low) NaN)) in
    if gt m threshold then one else m.
Proof.
  intros Hs Hr Hi. unfold ratio_of_bounds, np_maximum in Hr.
  assert (Hn : shape high = shape (np_negative low)) by exact Hs.
  destruct (broadcast2_same_shape maximum high (np_negative low) Hn)
    as (m & Hm & _ & _ & Hnth).
  rewrite Hm in Hr. rewrite (@assign_where_gt_nth m r i Hr). cbv zeta.
  rewrite Hnth by (rewrite Hs; exact Hi). now rewrite np_negative_nth.
Qed.



(** X5. Where a bound of a box that is not 0-dimensional is infinite (and
    none is NaN), or the larger magnitude of the bounds is above 1e38,
    the ratio entry is 1 and an observation divided by the ratio keeps
    the value of its entry there: the dimension is not normalised. *)
Theorem unbounded_dimension_not_normalized (low high obs : ndarray) (i : nat) :
  shape low <> [] ->
  shape high = shape low ->
  shape obs = shape low ->
  i < size (shape low) ->
  (nth i (data high) NaN = PInf /\ nth i (data low) NaN <> NaN) \/
  (nth i (data low) NaN = NInf /\ nth i (data high) NaN <> NaN) \/
  gt (maximum (nth i (data high) NaN) (neg (nth i (data low) NaN))) threshold = true ->
  exists r q,
    ratio_of_bounds low high = Some r /\
    nth i (data r) NaN = one /\
    np_divide obs r = Some q /\
    nth i (data q) NaN = to_float (nth i (data obs) NaN).
Proof.
  intros Hne Hs Ho Hi Hinf.
  destruct (@ratio_of_bounds_defined low high Hne Hs) as (r & Hr & Hrs).
  assert (Hgt : gt (maximum (nth i (data high) NaN) (neg (nth i (data low) NaN)))
                   threshold = true).
  { destruct Hinf as [[Hh Hl] | [[Hl Hh] | Hgt]]; [| | exact Hgt].
    - rewrite Hh, maximum_pinf_l by now apply neg_not_nan. reflexivity.
    - rewrite Hl. simpl. now rewrite maximum_pinf_r. }
  assert (Hone : nth i (data r) NaN = one).
  { rewrite (@ratio_of_bounds_nth low high r i Hs Hr Hi). cbv zeta. now rewrite Hgt. }
  assert (Hor : shape obs = shape r) by congruence.
  destruct (broadcast2_same_shape div obs r Hor) as (q & Hq & _ & _ & Hnth).
  exists r, q. repeat split; try assumption.
  rewrite Hnth by (rewrite Ho; exact Hi). rewrite Hone. apply div_one.
Qed.

Lemma unbounded_dimension_not_normalized_witness :
  exists r q,
    ratio_of_bounds (mkarr [2] [NInf; zero]) (mkarr [2] [PInf; one]) = Some r /\
    nth 0 (data r) NaN = one /\
    np_divide (vec [7 # 1; 1 # 2]) r = Some q /\
    nth 0 (data q) NaN = to_float (nth 0 (data (vec [7 # 1; 1 # 2])) NaN).
Proof.
  apply (@unbounded_dimension_not_normalized
           (mkarr [2] [NInf; zero]) (mkarr [2] [PInf; one]) (vec [7 # 1; 1 # 2]) 0).
  - discriminate.
  - reflexivity.
  - reflexivity.
  - simpl. lia.
  - left. split; [reflexivity | discriminate].
Defined.

Lemma Qc_div_within_unit (x m : Qc) :
  (0 < m)%Qc -> (- m <= x)%Qc -> (x <= m)%Qc ->
  (- (1) <= x / m)%Qc /\ (x / m <= 1)%Qc.
Proof.
  intros Hm Hlo Hhi.
  assert (Hne : m <> Q2Qc 0) by (intros ->; now apply (Qclt_not_eq _ _ Hm)).
  split; apply Qcmult_lt_0_le_reg_r with (z := m); try exact Hm;
    rewrite (Qc_div_mul_cancel x Hne).
  - replace (- (1) * m)%Qc with (- m)%Qc by ring. exact Hlo.
  - replace (1 * m)%Qc with m by ring. exact Hhi.
Qed.

(** The larger magnitude of two finite bounds with [lo <= hi]. *)
Lemma maximum_of_bounds (lo hi : Qc) :
  exists m, maximum (Fin hi) (neg (Fin lo)) = Fin m /\
            (hi <= m)%Qc /\ (- lo <= m)%Qc /\ (m = hi \/ m = (- lo)%Qc).
Proof.
  simpl. destruct (hi ?= - lo)%Qc eqn:Hc.
  - exists hi. apply Qceq_alt in Hc. repeat split.
    + apply Qcle_refl.
    + rewrite <- Hc. apply Qcle_refl.
    + now left.
  - exists (- lo)%Qc. apply Qclt_alt in Hc. repeat split.
    + now apply Qclt_le_weak.
    + apply Qcle_refl.
    + now right.
  - exists hi. apply Qcgt_alt in Hc. repeat split.
    + apply Qcle_refl.
    + now apply Qclt_le_weak.
    + now left.
Qed.

(** X6. Where the bounds of a box that is not 0-dimensional are floats,
    finite, not both 0 and of magnitude at most 1e38, a float observation
    entry within the bounds is normalised to a number between -1 and 1. *)
Theorem bounded_dimension_normalized_to_unit
    (low high obs : ndarray) (i : nat) (lo hi x : Qc) :
  shape low <> [] ->
  shape high = shape low ->
  shape obs = shape low ->
  i < size (shape low) ->
  nth i (data low) NaN = Fin lo ->
  nth i (data high) NaN = Fin hi ->
  nth i (data obs) NaN = Fin x ->
  (lo <= x)%Qc -> (x <= hi)%Qc ->
  ~ (lo = Q2Qc 0 /\ hi = Q2Qc 0) ->
  (hi <= threshold)%Qc -> (- lo <= threshold)%Qc ->
  exists r q y,
    ratio_of_bounds low high = Some r /\
    np_divide obs r = Some q /\
    nth i (data q) NaN = Fin y /\
    (- (1) <= y)%Qc /\ (y <= 1)%Qc.
Proof.
  intros Hne Hs Ho Hi Hl Hh Hx Hlx Hxh Hnz Hht Hlt.
  destruct (@ratio_of_bounds_defined low high Hne Hs) as (r & Hr & Hrs).
  destruct (maximum_of_bounds lo hi) as (m & Hm & Hhm & Hlm & Hcase).
  assert (Hle : (m <= threshold)%Qc) by (destruct Hcase; subst m; assumption).
  assert (Hri : nth i (data r) NaN = Fin m).
  { rewrite (@ratio_of_bounds_nth low high r i Hs Hr Hi). cbv zeta.
    rewrite Hl, Hh, Hm. unfold gt. simpl.
    destruct (m ?= threshold)%Qc eqn:Hc; try reflexivity.
    apply Qcgt_alt in Hc. now apply Qcle_not_lt in Hle. }
  assert (Hupper : (x <= m)%Qc) by (eapply Qcle_trans; eassumption).
  assert (Hlower : (- m <= x)%Qc).
  { apply Qcle_trans with lo; [| exact Hlx].
    rewrite <- (Qcopp_involutive lo). now apply Qcopp_le_compat. }
  assert (Hpos : (0 < m)%Qc).
  { destruct (Qclt_le_dec 0 m) as [Hp | Hn]; [exact Hp | exfalso].
    assert (Hm0 : m = Q2Qc 0).
    { apply Qcle_antisym; [exact Hn |].
      destruct (Qclt_le_dec x 0) as [Hxn | Hxp].
      - apply Qcle_trans with (- x)%Qc.
        + apply Qclt_le_weak in Hxn. apply Qcopp_le_compat in Hxn. exact Hxn.
        + rewrite <- (Qcopp_involutive m). now apply Qcopp_le_compat.
      - eapply Qcle_trans; eassumption. }
    subst m. apply Hnz. split.
    - apply Qcle_antisym.
      + apply Qcle_trans with x; [exact Hlx |]. exact Hupper.
      + rewrite <- (Qcopp_involutive lo). change (Q2Qc 0) with (- (0))%Qc.
        now apply Qcopp_le_compat.
    - apply Qcle_antisym; [exact Hhm |].
      apply Qcle_trans with x; [| exact Hxh].
      apply Qcle_trans with lo; [| exact Hlx].
      rewrite <- (Qcopp_involutive lo). change (Q2Qc 0) with (- (0))%Qc.
      now apply Qcopp_le_compat. }
  assert (Hor : shape obs = shape r) by congruence.
  destruct (broadcast2_same_shape div obs r Hor) as (q & Hq & _ & _ & Hnth).
  exists r, q, (x / m)%Qc. split; [exact Hr |]. split; [exact Hq |]. split.
  - rewrite Hnth by (rewrite Ho; exact Hi). rewrite Hri, Hx.
    unfold div, float_div, to_float.
    destruct (m ?= Q2Qc 0)%Qc eqn:Hc; try reflexivity.
    apply Qceq_alt in Hc. subst m. now apply Qclt_not_eq in Hpos.
  - now apply Qc_div_within_unit.
Qed.

Lemma bounded_dimension_normalized_to_unit_witness :
  exists r q y,
    ratio_of_bounds (vec [-4 # 1]) (vec [2 # 1]) = Some r /\
    np_divide (vec [-3 # 1]) r = Some q /\
    nth 0 (data q) NaN = Fin y /\
    (- (1) <= y)%Qc /\ (y <= 1)%Qc.
Proof.
  apply (@bounded_dimension_normalized_to_unit
           (vec [-4 # 1]) (vec [2 # 1]) (vec [-3 # 1]) 0
           (Q2Qc (-4 # 1)) (Q2Qc (2 # 1)) (Q2Qc (-3 # 1)));
    try reflexivity; try discriminate.
  - simpl. lia.
  - intros [H _]. discriminate H.
Defined.

(** Over an [int8] box from -128 to 127 the negated lower bound wraps to
    -128: the ratio is 127, and the lower bound is normalised below -1. *)
Example int8_ratio :
  ratio_of_bounds (mkarr [1] [Int true 8 (-128)]) (mkarr [1] [Int true 8 127])
  = Some (mkarr [1] [Int true 8 127]).
Proof. reflexivity. Qed.

(** Over a [uint8] box from 0 to 255, as images have, the ratio is 255. *)
Example uint8_ratio :
  ratio_of_bounds (mkarr [1] [Int false 8 0]) (mkarr [1] [Int false 8 255])
  = Some (mkarr [1] [Int false 8 255]).
Proof. reflexivity. Qed.

(** Over 0-dimensional bounds the constructor raises TypeError. *)
Example zero_dimensional_box :
  ratio_of_bounds (mkarr [] [zero]) (mkarr [] [one]) = None /\
  ratio_error (mkarr [] [zero]) (mkarr [] [one]) = TypeError.
Proof. split; reflexivity. Qed.

(** ** A step of a running episode *)

Lemma info_get_missing (key : string) (default : bool) (info : gym.Info) :
  (forall k b, In (k, b) info -> k <> key) ->
  gym.info_get key default info = default.
Proof.
  induction info as [| [k b] rest IH]; intros Hnone; simpl.
  - reflexivity.
  - destruct (String.eqb_spec k key) as [-> | Hne].
    + exfalso. apply (Hnone key b); [now left | reflexivity].
    + apply IH. intros k' b' Hin. apply (Hnone k' b'). now right.
Qed.

Section RunningStep.
Context {St : Type}.
Variable E : gym.Env St.

(** X7. In a running episode, a step for which the environment does not
    report [done] hands the pending action to the environment and leaves
    a decision batch of the one agent with the environment's reward and
    its observation divided entry by entry by the ratio, no action mask
    and an empty terminal batch. The episode stays running and the
    pending action stays stored. *)
Theorem step_not_done (w : GymToUnityWrapper St) :
  let r := gym.step E (_gym_env w) (_g_action w) in
  let obs := fst (fst (fst (snd r))) in
  let rew := snd (fst (fst (snd r))) in
  _first_message w = false ->
  snd (fst (snd r)) = false ->
  shape obs = shape (_obs_ratio w) ->
  exists w' q,
    step E w = (inr tt, w') /\
    d_agent_id (fst (_current_steps w')) = [_AGENT_ID] /\
    d_reward (fst (_current_steps w')) = [rew] /\
    d_action_mask (fst (_current_steps w')) = None /\
    d_obs (fst (_current_steps w')) = [mkarr (1 :: shape obs) (data q)] /\
    (forall i, i < size (shape obs) ->
       nth i (data q) NaN
       = div (nth i (data obs) NaN) (nth i (data (_obs_ratio w)) NaN)) /\
    t_len (snd (_current_steps w')) = 0 /\
    _first_message w' = false /\
    _g_action w' = _g_action w /\
    _gym_env w' = fst r.
Proof.
  intros r obs rew Hrun Hdone Hshape.
  destruct (broadcast2_same_shape div obs (_obs_ratio w) Hshape)
    as (q & Hq & Hqs & _ & Hnth).
  rewrite step_running_unfold by exact Hrun. cbv zeta.
  fold r. fold obs. fold rew. rewrite Hdone. unfold np_divide. rewrite Hq.
  eexists. exists q. split; [reflexivity |]. simpl.
  unfold expand_dims0. rewrite Hqs. repeat split; assumption.
Qed.

(** X8. In a running episode, a step for which the environment reports
    [done] leaves an empty decision batch and a terminal batch of the one
    agent with the environment's reward and normalised observation;
    [interrupted] is the entry "TimeLimit.truncated" of [info], and false
    when [info] has no such entry. The wrapper is FRESH afterwards: the
    next [step()] is a [reset()], which restarts the environment. *)
Theorem step_done (w : GymToUnityWrapper St) :
  let r := gym.step E (_gym_env w) (_g_action w) in
  let obs := fst (fst (fst (snd r))) in
  let rew := snd (fst (fst (snd r))) in
  let info := snd (snd r) in
  _first_message w = false ->
  snd (fst (snd r)) = true ->
  shape obs = shape (_obs_ratio w) ->
  exists w' q,
    step E w = (inr tt, w') /\
    d_len (fst (_current_steps w')) = 0 /\
    t_agent_id (snd (_current_steps w')) = [_AGENT_ID] /\
    t_reward (snd (_current_steps w')) = [rew] /\
    t_interrupted (snd (_current_steps w'))
    = [gym.info_get "TimeLimit.truncated" false info] /\
    ((forall k b, In (k, b) info -> k <> "TimeLimit.truncated"%string) ->
     t_interrupted (snd (_current_steps w')) = [false]) /\
    t_obs (snd (_current_steps w')) = [mkarr (1 :: shape obs) (data q)] /\
    (forall i, i < size (shape obs) ->
       nth i (data q) NaN
       = div (nth i (data obs) NaN) (nth i (data (_obs_ratio w)) NaN)) /\
    _first_message w' = true /\
    _g_action w' = _g_action w /\
    _gym_env w' = fst r /\
    step E w' = reset E w' /\
    _gym_env (snd (step E w')) = fst (gym.reset E (fst r)).
Proof.
  intros r obs rew info Hrun Hdone Hshape.
  destruct (broadcast2_same_shape div obs (_obs_ratio w) Hshape)
    as (q & Hq & Hqs & _ & Hnth).
  rewrite step_running_unfold by exact Hrun. cbv zeta.
  fold r. fold obs. fold rew. fold info. rewrite Hdone. unfold np_divide. rewrite Hq.
  eexists. exists q. split; [reflexivity |].
  rewrite step_fresh_unfold by reflexivity. rewrite reset_unfold. cbv zeta. simpl.
  unfold expand_dims0. rewrite Hqs.
  repeat split; try assumption; try reflexivity.
  - intros Hnone. now rewrite info_get_missing.
  - destruct (np_divide _ _); reflexivity.
Qed.

(** X9. A [reset()] whose observation numpy cannot divide by the ratio raises
    ValueError after the environment was restarted and the FRESH flag
    cleared; the step pair and the pending action are as before. The next
    [step()] therefore calls the environment's [step]. *)
Theorem reset_failure_is_not_rolled_back (w : GymToUnityWrapper St) :
  np_divide (snd (gym.reset E (_gym_env w))) (_obs_ratio w) = None ->
  exists w',
    reset E w = (inl ValueError, w') /\
    _gym_env w' = fst (gym.reset E (_gym_env w)) /\
    _first_message w' = false /\
    _current_steps w' = _current_steps w /\
    _g_action w' = _g_action w /\
    _gym_env (snd (step E w')) = fst (gym.step E (_gym_env w') (_g_action w)).
Proof.
  intros Hdiv.
  exists (set_gym_env (fst (gym.reset E (_gym_env w))) (set_first_message false w)).
  split.
  { rewrite reset_unfold. cbv zeta. now rewrite Hdiv. }
  clear Hdiv. simpl. repeat split.
  rewrite step_running_unfold by reflexivity. cbv zeta. simpl.
  destruct (snd (fst (snd _))); destruct (np_divide _ _); reflexivity.
Qed.

End RunningStep.

Lemma step_not_done_witness :
  exists w',
    step scenario_env (snd (reset scenario_env scenario_wrapper)) = (inr tt, w') /\
    d_reward (fst (_current_steps w')) = [one] /\
    _first_message w' = false.
Proof.
  destruct (@step_not_done _ scenario_env (snd (reset scenario_env scenario_wrapper))
              eq_refl eq_refl eq_refl)
    as (w' & q & Hstep & _ & Hrew & _ & _ & _ & _ & Hrun & _).
  exists w'. repeat split; assumption.
Defined.

Lemma step_done_witness :
  exists w',
    step scenario_env (snd (run scenario_env [DoReset; DoStep] scenario_wrapper))
    = (inr tt, w') /\
    t_interrupted (snd (_current_steps w')) = [true] /\
    _first_message w' = true /\
    _gym_env (snd (step scenario_env w'))
    = [CallReset; CallStep gym.ActNone; CallStep gym.ActNone; CallReset].
Proof.
  destruct (@step_done _ scenario_env
              (snd (run scenario_env [DoReset; DoStep] scenario_wrapper))
              eq_refl eq_refl eq_refl)
    as (w' & q & Hstep & _ & _ & _ & Hint & _ & _ & _ & Hfresh & _ & _ & _ & Henv).
  exists w'. repeat split; assumption.
Defined.

Lemma reset_failure_is_not_rolled_back_witness :
  exists w',
    reset misshapen_env misshapen_wrapper = (inl ValueError, w') /\
    _first_message w' = false /\
    _gym_env (snd (step misshapen_env w')) = [CallStep gym.ActNone; CallReset].
Proof.
  destruct (@reset_failure_is_not_rolled_back _ misshapen_env misshapen_wrapper
              eq_refl)
    as (w' & Hreset & Henv & Hrun & _ & _ & Hstep).
  exists w'. repeat split; try assumption.
  rewrite Hstep, Henv. reflexivity.
Defined.

Lemma misshapen_wrapper_constructed :
  __init__ misshapen_env [] None = inr misshapen_wrapper.
Proof. reflexivity. Qed.

(** ** Submitting actions: contract, shapes and coercion *)

Lemma astype_data_length (t : np_dtype) (a : ndarray) :
  length (data (astype t a)) = length (data a).
Proof. destruct t; simpl; [reflexivity | apply length_map]. Qed.

Lemma astype_expand_dims0 (t : np_dtype) (a : ndarray) :
  astype t (expand_dims0 a) = expand_dims0 (astype t a).
Proof. destruct t; reflexivity. Qed.

Lemma trunc_in_range (t : np_dtype) (q : Qc) :
  (- 2 ^ 31 <= trunc q < 2 ^ 31)%Z ->
  py_int (nth 0 (data (astype t (mkarr [1] [Fin q]))) NaN) = trunc q.
Proof.
  intros Hq. destruct t; [reflexivity |].
  change (py_int (of_Z (to_int32 (Fin q))) = trunc q).
  rewrite to_int32_in_range by exact Hq. apply trunc_of_Z.
Qed.

Section Submissions.
Context {St : Type}.
Variable E : gym.Env St.
Variable action_size : BehaviorSpec -> pynum.

(** X10. A behavior name other than the wrapper's makes [set_actions],
    [set_action_for_agent] and [get_steps] fail their assertion before
    anything else is looked at (the decision batch, the shape of the
    action); so does an agent id other than 1 in [set_action_for_agent].
    The object is left as it was. *)
Theorem contract_violations (w : GymToUnityWrapper St) (behavior_name : string)
                            (agent_id : Z) (action : ndarray) :
  (behavior_name <> _behavior_name w ->
   set_actions E action_size behavior_name action w = (inl AssertionError, w) /\
   set_action_for_agent E action_size behavior_name agent_id action w
   = (inl AssertionError, w) /\
   get_steps behavior_name w = (inl AssertionError, w)) /\
  (agent_id <> _AGENT_ID ->
   set_action_for_agent E action_size (_behavior_name w) agent_id action w
   = (inl AssertionError, w)).
Proof.
  split.
  - intros Hname. apply String.eqb_neq in Hname.
    unfold set_actions, set_action_for_agent, get_steps, bind, gets, py_assert.
    simpl. rewrite Hname. repeat split.
  - intros Hid. apply Z.eqb_neq in Hid.
    unfold set_action_for_agent. enter_method. rewrite Hid. reflexivity.
Qed.

(** X11. [set_action_for_agent] with an action whose shape is not
    (action_size,) raises UnityActionException and stores nothing. The
    message is one fixed text: it is built from an f-string whose fields
    are the numbers 0 to 3, so it names neither the agent, nor the
    behavior, nor the shapes. *)
Theorem set_action_for_agent_wrong_shape (w : GymToUnityWrapper St)
                                         (action : ndarray) :
  shape action <> [py_value (action_size (_behavior_specs w))] ->
  set_action_for_agent E action_size (_behavior_name w) _AGENT_ID action w
  = (inl (UnityActionException
            "The Agent 0 with BehaviorName 1 needs an input of dimension 2 but received input of dimension 3"),
     w).
Proof.
  intros Hshape. unfold set_action_for_agent. enter_method.
  destruct (tuple_eqb (shape action) [action_size (_behavior_specs w)]) eqn:Heq.
  - apply tuple_eqb_true in Heq. contradiction.
  - reflexivity.
Qed.

(** X12. With one agent awaiting a decision, submitting an action of shape
    (action_size,) for the agent and submitting it as the one row of a
    batch end alike and leave the same object. *)
Theorem set_actions_agrees_with_set_action_for_agent
    (w : GymToUnityWrapper St) (behavior_name : string) (action : ndarray) :
  d_len (fst (_current_steps w)) = 1 ->
  shape action = [py_value (action_size (_behavior_specs w))] ->
  length (data action) = py_value (action_size (_behavior_specs w)) ->
  set_actions E action_size behavior_name (expand_dims0 action) w
  = set_action_for_agent E action_size behavior_name _AGENT_ID action w.
Proof.
  intros Hn Hshape Hlen.
  unfold set_actions, set_action_for_agent, bind, gets, py_assert. simpl.
  destruct (String.eqb behavior_name (_behavior_name w)); [| reflexivity].
  simpl. rewrite Hn. simpl. rewrite Hshape. simpl.
  rewrite Nat.eqb_refl. simpl.
  set (t := if is_action_continuous (_behavior_specs w) then float32 else int32).
  rewrite astype_expand_dims0.
  assert (Hts : shape (astype t action) = [py_value (action_size (_behavior_specs w))])
    by now rewrite astype_shape.
  assert (Htl : length (data (astype t action))
                = py_value (action_size (_behavior_specs w)))
    by now rewrite astype_data_length.
  destruct (astype t action) as [s d]. simpl in Hts, Htl. subst s.
  destruct (gym.action_space E) as [low high | n | repr]; [| | reflexivity].
  - unfold getitem0, expand_dims0. simpl.
    rewrite Nat.mul_1_r, <- Htl, firstn_all. reflexivity.
  - unfold getitem00, getitem0_scalar, expand_dims0. simpl.
    destruct (py_value (action_size (_behavior_specs w))); reflexivity.
Qed.

(** X13. Over a discrete action space, with one agent awaiting a decision,
    [set_actions] stores the first entry of the action as an integer: a
    number that is not whole is truncated towards zero. *)
Theorem set_actions_discrete_truncates (w : GymToUnityWrapper St)
    (action : ndarray) (n : nat) (q : Qc) :
  gym.action_space E = gym.Discrete n ->
  d_len (fst (_current_steps w)) = 1 ->
  shape action = [1; py_value (action_size (_behavior_specs w))] ->
  0 < py_value (action_size (_behavior_specs w)) ->
  nth 0 (data action) NaN = Fin q ->
  (- 2 ^ 31 <= trunc q < 2 ^ 31)%Z ->
  set_actions E action_size (_behavior_name w) action w
  = (inr tt, set_g_action (gym.ActInt (trunc q)) w).
Proof.
  intros Hspace Hn Hshape Hpos Hq Hrange.
  unfold set_actions. enter_method. rewrite Hn. simpl. rewrite Hshape. simpl.
  rewrite Nat.eqb_refl. simpl. rewrite Hspace.
  set (t := if is_action_continuous (_behavior_specs w) then float32 else int32).
  unfold getitem00. rewrite astype_shape, Hshape.
  destruct (py_value (action_size (_behavior_specs w))) as [| k]; [lia |].
  simpl. unfold modify. do 3 f_equal.
  rewrite <- (@trunc_in_range t q Hrange).
  destruct t; simpl.
  - now rewrite Hq.
  - destruct (data action) as [| x rest]; simpl in Hq |- *; [discriminate |].
    now rewrite Hq.
Qed.

End Submissions.

Lemma contract_violations_witness :
  set_actions scenario_env base_env.action_size "other" (mkarr [1; 1] [one])
    scenario_wrapper
  = (inl AssertionError, scenario_wrapper) /\
  set_action_for_agent scenario_env base_env.action_size "gym_behavior_name" 2
    (vec [1 # 1]) scenario_wrapper
  = (inl AssertionError, scenario_wrapper).
Proof.
  destruct (@contract_violations _ scenario_env base_env.action_size
              scenario_wrapper "other" 2%Z (mkarr [1; 1] [one])) as (Hname & _).
  destruct (@contract_violations _ scenario_env base_env.action_size
              scenario_wrapper "gym_behavior_name" 2%Z (vec [1 # 1])) as (_ & Hid).
  split.
  - apply Hname. discriminate.
  - apply Hid. discriminate.
Defined.

Lemma set_action_for_agent_wrong_shape_witness :
  set_action_for_agent scenario_env base_env.action_size "gym_behavior_name" 1
    (vec [1 # 1; 1 # 1]) scenario_wrapper
  = (inl (UnityActionException
            "The Agent 0 with BehaviorName 1 needs an input of dimension 2 but received input of dimension 3"),
     scenario_wrapper).
Proof.
  apply (@set_action_for_agent_wrong_shape _ scenario_env base_env.action_size
           scenario_wrapper (vec [1 # 1; 1 # 1])).
  discriminate.
Defined.

Lemma set_actions_agrees_with_set_action_for_agent_witness :
  set_actions scenario_env base_env.action_size "gym_behavior_name"
    (mkarr [1; 1] [one]) (snd (reset scenario_env scenario_wrapper))
  = set_action_for_agent scenario_env base_env.action_size "gym_behavior_name" 1
      (mkarr [1] [one]) (snd (reset scenario_env scenario_wrapper)).
Proof.
  exact (@set_actions_agrees_with_set_action_for_agent _ scenario_env
           base_env.action_size (snd (reset scenario_env scenario_wrapper))
           "gym_behavior_name" (mkarr [1] [one]) eq_refl eq_refl eq_refl).
Defined.

Lemma set_actions_discrete_truncates_witness :
  set_actions discrete_env base_env.action_size "gym_behavior_name"
    (mkarr [1; 4] [Fin (Q2Qc (27 # 10)); zero; zero; zero])
    (snd (reset discrete_env discrete_wrapper))
  = (inr tt, set_g_action (gym.ActInt 2) (snd (reset discrete_env discrete_wrapper))).
Proof.
  apply (@set_actions_discrete_truncates _ discrete_env base_env.action_size
           (snd (reset discrete_env discrete_wrapper))
           (mkarr [1; 4] [Fin (Q2Qc (27 # 10)); zero; zero; zero]) 4
           (Q2Qc (27 # 10))); try reflexivity.
  - simpl. lia.
  - vm_compute. split; [discriminate | reflexivity].
Defined.

(** ** What each call writes *)

Section Effects.
Context {St : Type}.
Variable E : gym.Env St.
Variable action_size : BehaviorSpec -> pynum.

Ltac unfold_submission :=
  unfold perform, set_actions, set_action_for_agent, get_steps,
    bind, gets, py_assert, orelse, modify, ret, raise; simpl.

Ltac split_submission :=
  repeat match goal with
         | |- context [match ?x with _ => _ end] =>
             lazymatch x with
             | context [match _ with _ => _ end] => fail
             | _ => destruct x eqn:?; simpl
             end
         end.

(** A submission or a read leaves the object as it was, or as it was but
    for a pending action of the kind the action space takes. *)
Lemma passive_effect (op : Op) (w : GymToUnityWrapper St) :
  passive op ->
  snd (perform E action_size op w) = w \/
  exists g, snd (perform E action_size op w) = set_g_action g w /\
            action_fits (gym.action_space E) g.
Proof.
  destruct op as [| | | n a | n i a | n]; try contradiction; intros _;
    unfold_submission; split_submission;
    try (left; reflexivity);
    right; eexists; (split; [reflexivity | exact I]).
Qed.

Lemma advance_effect (c : Advance) (w : GymToUnityWrapper St) :
  _current_steps (snd (advance E c w)) = _current_steps w \/
  exactly_one_batch (_current_steps (snd (advance E c w))).
Proof.
  assert (Hreset : _current_steps (snd (reset E w)) = _current_steps w \/
                   exactly_one_batch (_current_steps (snd (reset E w)))).
  { rewrite reset_unfold. cbv zeta. destruct (np_divide _ _).
    - right. apply decision_pair_exactly_one.
    - left. reflexivity. }
  destruct c; simpl; [| exact Hreset].
  destruct (_first_message w) eqn:Hf.
  - rewrite step_fresh_unfold by exact Hf. exact Hreset.
  - rewrite step_running_unfold by exact Hf. cbv zeta.
    destruct (snd (fst (snd _))); destruct (np_divide _ _); simpl;
      try (left; reflexivity); right.
    + apply terminal_pair_exactly_one.
    + apply decision_pair_exactly_one.
Qed.

(** What every call keeps: the attributes the constructor wrote; a step
    pair with no agent or with one batch of one agent; a pending action
    of the kind the action space takes. *)
Lemma perform_effect (op : Op) (w : GymToUnityWrapper St) :
  let w' := snd (perform E action_size op w) in
  same_spec w w' /\
  (_current_steps w' = _current_steps w \/ exactly_one_batch (_current_steps w')) /\
  (_g_action w' = _g_action w \/ action_fits (gym.action_space E) (_g_action w')).
Proof.
  cbv zeta.
  destruct op as [| | | n a | n i a | n].
  - pose proof (step_frame E w) as (H1 & H2 & H3 & H4 & H5).
    pose proof (advance_effect DoStep w) as Hp.
    repeat split; try assumption. now left.
  - pose proof (reset_frame E w) as (H1 & H2 & H3 & H4 & H5).
    pose proof (advance_effect DoReset w) as Hp.
    repeat split; try assumption. now left.
  - repeat split; now left.
  - destruct (passive_effect (OpSetActions n a) w I) as [-> | (g & -> & Hfit)];
      repeat split; try (now left). now right.
  - destruct (passive_effect (OpSetActionForAgent n i a) w I)
      as [-> | (g & -> & Hfit)];
      repeat split; try (now left). now right.
  - destruct (passive_effect (OpGetSteps n) w I) as [-> | (g & -> & Hfit)];
      repeat split; try (now left). now right.
Qed.

Lemma exec_preserves (P : GymToUnityWrapper St -> Prop) :
  (forall op w, P w -> P (snd (perform E action_size op w))) ->
  forall ops w, P w -> P (exec E action_size ops w).
Proof.
  intros Hstep ops. induction ops as [| op rest IH]; intros w Hw.
  - exact Hw.
  - simpl. apply IH. now apply Hstep.
Qed.

(** X14. Whatever calls are made, and however they end, the behavior name, the
    behavior spec and the two ratios stay as the constructor wrote them:
    [behavior_specs] always returns the same mapping. *)
Theorem spec_is_read_only (ops : list Op) (w : GymToUnityWrapper St) :
  same_spec w (exec E action_size ops w) /\
  behavior_specs (exec E action_size ops w) = behavior_specs w.
Proof.
  assert (H : same_spec w (exec E action_size ops w)).
  { apply (exec_preserves (fun w' => same_spec w w')).
    - intros op w' (H1 & H2 & H3 & H4).
      destruct (perform_effect op w') as ((G1 & G2 & G3 & G4) & _).
      repeat split; congruence.
    - repeat split. }
  split; [exact H |]. destruct H as (H1 & _ & _ & H4).
  unfold behavior_specs. now rewrite H1, H4.
Qed.

(** X15. After construction, whatever calls are made and however they end
    (an exception being caught by the caller), the step pair has no agent
    at all or exactly one batch of one agent: never an agent in both
    batches, never two agents. *)
Theorem step_pair_at_most_one_agent (gym_env : St) (name : option string)
    (w0 : GymToUnityWrapper St) (ops : list Op) :
  __init__ E gym_env name = inr w0 ->
  no_agent (_current_steps (exec E action_size ops w0)) \/
  exactly_one_batch (_current_steps (exec E action_size ops w0)).
Proof.
  intros Hinit.
  apply (exec_preserves
           (fun w => no_agent (_current_steps w) \/
                     exactly_one_batch (_current_steps w))).
  - intros op w Hw. destruct (perform_effect op w) as (_ & [-> | Hone] & _).
    + exact Hw.
    + now right.
  - left. apply init_returns in Hinit. destruct Hinit as (_ & _ & _ & -> & _).
    split; reflexivity.
Qed.

(** X16. After construction, whatever calls are made and however they end,
    the pending action is [None], or an integer over a discrete action
    space, or an array over a box: never an array over a discrete space
    nor an integer over a box. *)
Theorem pending_action_fits_space (gym_env : St) (name : option string)
    (w0 : GymToUnityWrapper St) (ops : list Op) :
  __init__ E gym_env name = inr w0 ->
  action_fits (gym.action_space E) (_g_action (exec E action_size ops w0)).
Proof.
  intros Hinit.
  apply (exec_preserves
           (fun w => action_fits (gym.action_space E) (_g_action w))).
  - intros op w Hw. destruct (perform_effect op w) as (_ & _ & [-> | Hfit]);
      assumption.
  - apply init_returns in Hinit. destruct Hinit as (_ & _ & -> & _). exact I.
Qed.

(** X17. Submitting actions and reading the steps, however the calls end,
    never reach the environment and never change the FRESH flag or the
    step pair: [get_steps] returns the same pair before and after. *)
Theorem submissions_leave_steps (ops : list Op) (w : GymToUnityWrapper St) :
  Forall passive ops ->
  let w' := exec E action_size ops w in
  _gym_env w' = _gym_env w /\
  _first_message w' = _first_message w /\
  _current_steps w' = _current_steps w /\
  get_steps (_behavior_name w') w' = (inr (_current_steps w), w').
Proof.
  intros Hops. cbv zeta.
  assert (H : _gym_env (exec E action_size ops w) = _gym_env w /\
              _first_message (exec E action_size ops w) = _first_message w /\
              _current_steps (exec E action_size ops w) = _current_steps w).
  { revert w. induction Hops as [| op rest Hop _ IH]; intros w.
    - repeat split.
    - simpl. destruct (IH (snd (perform E action_size op w))) as (H1 & H2 & H3).
      rewrite H1, H2, H3.
      destruct (passive_effect op w Hop) as [-> | (g & -> & _)]; repeat split. }
  destruct H as (H1 & H2 & H3). repeat split; try assumption.
  rewrite get_steps_returns. now rewrite H3.
Qed.

(** X18. While an agent awaits a decision, of two submissions that return
    only the second counts: the object is as if the first had not been
    made. *)
Theorem last_submission_wins (s1 s2 : Op) (w w1 w2 : GymToUnityWrapper St) :
  submission s1 -> submission s2 ->
  d_len (fst (_current_steps w)) = 1 ->
  perform E action_size s1 w = (inr tt, w1) ->
  perform E action_size s2 w = (inr tt, w2) ->
  perform E action_size s2 w1 = (inr tt, w2).
Proof.
  intros Hs1 Hs2 Hn H1 H2.
  assert (Hp1 : passive s1) by (destruct s1; try contradiction; exact I).
  destruct (passive_effect s1 w Hp1) as [Hw | (g & Hw & _)];
    rewrite H1 in Hw; simpl in Hw; subst w1; [exact H2 |].
  clear H1 Hs1 Hp1.
  destruct s2 as [| | | n a | n i a | n]; try contradiction;
    revert H2; unfold_submission; rewrite ?Hn; simpl;
    split_submission; intros H2; try discriminate;
    try (rewrite Hn in *; discriminate); exact H2.
Qed.

End Effects.

(** ** The calls the environment receives *)

Section EnvironmentCalls.
Context {St : Type}.
Variable E : gym.Env St.
Variable action_size : BehaviorSpec -> pynum.

(** The call an operation makes to a logged environment, if any. *)
Lemma logged_perform (op : Op) (w : GymToUnityWrapper (St * list Call)) :
  snd (_gym_env (snd (perform (logged E) action_size op w)))
  = match op with
    | OpStep =>
        (if _first_message w then CallReset else CallStep (_g_action w))
        :: snd (_gym_env w)
    | OpReset => CallReset :: snd (_gym_env w)
    | OpClose => CallClose :: snd (_gym_env w)
    | _ => snd (_gym_env w)
    end.
Proof.
  assert (Hreset : snd (_gym_env (snd (reset (logged E) w)))
                   = CallReset :: snd (_gym_env w)).
  { rewrite reset_unfold. cbv zeta. simpl.
    destruct (gym.reset E (fst (_gym_env w))) as [s obs]. simpl.
    destruct (np_divide _ _); reflexivity. }
  destruct op as [| | | n a | n i a | n].
  - simpl. destruct (_first_message w) eqn:Hf.
    + rewrite step_fresh_unfold by exact Hf. exact Hreset.
    + rewrite step_running_unfold by exact Hf. cbv zeta. simpl.
      destruct (gym.step E (fst (_gym_env w)) (_g_action w)) as [s [[[obs rew] done] info]].
      simpl. destruct done; destruct (np_divide _ _); reflexivity.
  - exact Hreset.
  - reflexivity.
  - destruct (passive_effect (logged E) action_size (OpSetActions n a) w I)
      as [-> | (g & -> & _)]; reflexivity.
  - destruct (passive_effect (logged E) action_size (OpSetActionForAgent n i a) w I)
      as [-> | (g & -> & _)]; reflexivity.
  - destruct (passive_effect (logged E) action_size (OpGetSteps n) w I)
      as [-> | (g & -> & _)]; reflexivity.
Qed.

(** X19. Over any environment, every [step()], [reset()] and [close()] makes
    exactly one call to the environment, also when it ends in an
    exception, and no other method makes any. Between two submissions
    every [step()] hands the same pending action to the environment: a
    step does not use the action up. *)
Theorem environment_calls (ops : list Op) (w : GymToUnityWrapper (St * list Call)) :
  exists new,
    snd (_gym_env (exec (logged E) action_size ops w)) = new ++ snd (_gym_env w) /\
    length new = length (filter calls_environment ops) /\
    (Forall (fun op => op = OpStep \/ op = OpReset) ops ->
     steps_with (_g_action w) new).
Proof.
  revert w. induction ops as [| op rest IH]; intros w.
  - exists []. repeat split. constructor.
  - simpl. destruct (IH (snd (perform (logged E) action_size op w)))
      as (new & Hlog & Hlen & Hsame).
    rewrite Hlog, logged_perform.
    destruct op as [| | | n a | n i a | n]; simpl;
      try (exists new; repeat split; [exact Hlen | intros Hops; inversion Hops as [| ? ? [Hop | Hop] ?]; discriminate Hop]).
    + exists (new ++ [if _first_message w then CallReset else CallStep (_g_action w)]).
      rewrite <- app_assoc. repeat split.
      * rewrite length_app, Hlen. simpl. lia.
      * intros Hops. inversion Hops as [| ? ? _ Hrest]; subst.
        apply Forall_app. split.
        -- pose proof (step_frame (logged E) w) as (_ & _ & _ & _ & Hg).
           rewrite <- Hg. now apply Hsame.
        -- constructor; [| constructor].
           destruct (_first_message w); [now left | now right].
    + exists (new ++ [CallReset]).
      rewrite <- app_assoc. repeat split.
      * rewrite length_app, Hlen. simpl. lia.
      * intros Hops. inversion Hops as [| ? ? _ Hrest]; subst.
        apply Forall_app. split.
        -- pose proof (reset_frame (logged E) w) as (_ & _ & _ & _ & Hg).
           rewrite <- Hg. now apply Hsame.
        -- constructor; [now left | constructor].
    + exists (new ++ [CallClose]).
      rewrite <- app_assoc. repeat split.
      * rewrite length_app, Hlen. simpl. lia.
      * intros Hops. inversion Hops as [| ? ? [Hop | Hop] ?]; discriminate Hop.
Qed.

End EnvironmentCalls.

(** *** Runs with calls of every kind *)

Lemma environment_calls_witness :
  exists new,
    snd (_gym_env (exec (logged scenario_env) base_env.action_size
                     [OpStep; OpStep; OpReset] logged_scenario_wrapper))
    = new ++ [] /\
    length new = 3 /\
    steps_with gym.ActNone new.
Proof.
  destruct (@environment_calls _ scenario_env base_env.action_size
              [OpStep; OpStep; OpReset] logged_scenario_wrapper)
    as (new & Hlog & Hlen & Hsame).
  exists new. split; [exact Hlog |]. split; [exact Hlen |].
  apply Hsame.
  constructor; [now left |]. constructor; [now left |].
  constructor; [now right |]. constructor.
Defined.

Lemma step_pair_at_most_one_agent_witness :
  no_agent (_current_steps
              (exec scenario_env base_env.action_size
                 [OpSetActions "other" (vec [1 # 1]); OpStep;
                  OpSetActions "gym_behavior_name" (mkarr [2; 1] [one; one]);
                  OpStep; OpStep; OpClose] scenario_wrapper)) \/
  exactly_one_batch
    (_current_steps
       (exec scenario_env base_env.action_size
          [OpSetActions "other" (vec [1 # 1]); OpStep;
           OpSetActions "gym_behavior_name" (mkarr [2; 1] [one; one]);
           OpStep; OpStep; OpClose] scenario_wrapper)).
Proof.
  exact (@step_pair_at_most_one_agent _ scenario_env base_env.action_size
           [] None scenario_wrapper _ eq_refl).
Defined.

Lemma pending_action_fits_space_witness :
  action_fits (gym.Discrete 4)
    (_g_action
       (exec discrete_env base_env.action_size
          [OpReset; OpSetActionForAgent "gym_behavior_name" 1
                      (vec [3 # 1; 0 # 1; 0 # 1; 0 # 1]);
           OpStep] discrete_wrapper)).
Proof.
  exact (@pending_action_fits_space _ discrete_env base_env.action_size
           [] None discrete_wrapper _ eq_refl).
Defined.

Lemma submissions_leave_steps_witness :
  _current_steps
    (exec scenario_env base_env.action_size
       [OpSetActions "gym_behavior_name" (mkarr [1; 1] [one]);
        OpGetSteps "other";
        OpSetActionForAgent "gym_behavior_name" 1 (vec [1 # 1; 1 # 1])]
       (snd (reset scenario_env scenario_wrapper)))
  = _current_steps (snd (reset scenario_env scenario_wrapper)).
Proof.
  apply (@submissions_leave_steps _ scenario_env base_env.action_size
           [OpSetActions "gym_behavior_name" (mkarr [1; 1] [one]);
            OpGetSteps "other";
            OpSetActionForAgent "gym_behavior_name" 1 (vec [1 # 1; 1 # 1])]
           (snd (reset scenario_env scenario_wrapper))).
  repeat constructor.
Defined.

Lemma last_submission_wins_witness :
  perform scenario_env base_env.action_size
    (OpSetActionForAgent "gym_behavior_name" 1 (vec [2 # 1]))
    (snd (perform scenario_env base_env.action_size
            (OpSetActions "gym_behavior_name" (mkarr [1; 1] [one]))
            (snd (reset scenario_env scenario_wrapper))))
  = perform scenario_env base_env.action_size
      (OpSetActionForAgent "gym_behavior_name" 1 (vec [2 # 1]))
      (snd (reset scenario_env scenario_wrapper)).
Proof.
  rewrite (@last_submission_wins _ scenario_env base_env.action_size
             (OpSetActions "gym_behavior_name" (mkarr [1; 1] [one]))
             (OpSetActionForAgent "gym_behavior_name" 1 (vec [2 # 1]))
             (snd (reset scenario_env scenario_wrapper))
             (snd (perform scenario_env base_env.action_size
                     (OpSetActions "gym_behavior_name" (mkarr [1; 1] [one]))
                     (snd (reset scenario_env scenario_wrapper))))
             (snd (perform scenario_env base_env.action_size
                     (OpSetActionForAgent "gym_behavior_name" 1 (vec [2 # 1]))
                     (snd (reset scenario_env scenario_wrapper))))
             I I eq_refl eq_refl eq_refl).
  reflexivity.
Defined.
